(** * Cluster connection provider (src/providers/cluster.tsx)

    A shallow embedding of the cluster-connection state provider of the
    explorer front-end: the cluster registry, URL resolution
    ([clusterUrl]), the connection reducer ([clusterReducer]), the
    connect operation ([updateCluster]), the query parsing and effects of
    [ClusterProvider] and its hooks, followed by the properties of the
    connection life cycle. *)

From Stdlib Require Import String Ascii List Bool ZArith Lia.
From ExtLib Require Import Structures.Monad Structures.MonadExc.
Import ListNotations.
Import MonadNotation.
Local Open Scope string_scope.
Local Open Scope monad_scope.

(** ** Cluster registry *)

(** [enum ClusterStatus { Connected, Connecting, Failure }] *)
Inductive ClusterStatus : Type :=
| Connected
| Connecting
| Failure.

(** [enum Cluster { MainnetBeta, Testnet, Custom }] *)
Inductive Cluster : Type :=
| MainnetBeta
| Testnet
| Custom.

Definition CLUSTERS : list Cluster := [MainnetBeta; Testnet; Custom].

(** Strict equality [===] on the members of the [Cluster] enum. *)
Definition Cluster_eqb (a b : Cluster) : bool :=
  match a, b with
  | MainnetBeta, MainnetBeta => true
  | Testnet, Testnet => true
  | Custom, Custom => true
  | _, _ => false
  end.

Definition clusterSlug (cluster : Cluster) : string :=
  match cluster with
  | MainnetBeta => "mainnet-beta"
  | Testnet => "testnet"
  | Custom => "custom"
  end.

Definition clusterName (cluster : Cluster) : string :=
  match cluster with
  | MainnetBeta => "Mainnet Beta"
  | Testnet => "Testnet"
  | Custom => "Custom"
  end.

Definition MAINNET_URL : string := "https://api-mainnet.bbachain.com".
Definition TESTNET_URL : string := "https://api-testnet.bbachain.com".

(** ** URL resolution *)

(** [s.slice(n)]: the string without its first [n] characters. *)
Fixpoint slice (n : nat) (s : string) : string :=
  match n, s with
  | O, _ => s
  | S _, EmptyString => EmptyString
  | S n', String _ s' => slice n' s'
  end.

(** [s.replace(pat, rep)] for a string pattern [pat] and a replacement
    [rep] without [$] patterns: only the first occurrence of [pat] is
    replaced, and a string without an occurrence is returned as it is. *)
Fixpoint replace (pat rep s : string) : string :=
  if prefix pat s then rep ++ slice (String.length pat) s
  else match s with
       | EmptyString => EmptyString
       | String c s' => String c (replace pat rep s')
       end.

(** [pat] matches at no position of [pre] within [pre ++ rest]: what it
    takes for an occurrence placed right after [pre] to be the first. *)
Fixpoint no_early_match (pat pre rest : string) : bool :=
  match pre with
  | EmptyString => true
  | String _ pre' =>
      negb (prefix pat (pre ++ rest)) && no_early_match pat pre' rest
  end.

(** What [clusterUrl] reads from its surroundings: the two build-time
    variables of [process.env] ([None] when undefined) and
    [window.location.hostname]. *)
Record Env : Type := {
  REACT_APP_MAINNET_RPC_URL : option string;
  REACT_APP_TESTNET_RPC_URL : option string;
  hostname : string
}.

(** The nullish coalescing operator [a ?? b]. *)
Definition nullish {A : Type} (a : option A) (b : A) : A :=
  match a with
  | Some v => v
  | None => b
  end.

Definition modifyUrl (env : Env) (url : string) : string :=
  if (hostname env =? "localhost")%string then url
  else replace "api" "explorer-api" url.

Definition clusterUrl (env : Env) (cluster : Cluster) (customUrl : string)
  : string :=
  match cluster with
  | MainnetBeta =>
      nullish (REACT_APP_MAINNET_RPC_URL env) (modifyUrl env MAINNET_URL)
  | Testnet =>
      nullish (REACT_APP_TESTNET_RPC_URL env) (modifyUrl env TESTNET_URL)
  | Custom => customUrl
  end.

Definition DEFAULT_CLUSTER : Cluster := MainnetBeta.
Definition DEFAULT_CUSTOM_URL : string := "http://localhost:8899".

(** Values that a [try] block can catch: the [TypeError] of a
    constructor that refuses its argument, or the reason of a rejected
    promise. *)
Inductive Thrown : Type :=
| TypeError (message : string)
| Rejection (reason : string).

(** The four requests of the RPC client. *)
Inductive Fetch : Type :=
| GetFirstAvailableBlock
| GetEpochSchedule
| GetEpochInfo
| GetGenesisHash.

(** A promise as the awaiting code sees it: when it settles and how
    ([inl] rejected, [inr] fulfilled). *)
Record Promise (A : Type) : Type := {
  settledAt : nat;
  outcome : Thrown + A
}.
Arguments settledAt {A} _.
Arguments outcome {A} _.

(** [Promise.all] on two promises: fulfilled when both are, rejected with
    the reason of the rejection that settles first (the lower index wins
    a tie, its reaction being queued first). *)
Definition Promise_both {A B : Type} (p : Promise A) (q : Promise B)
  : Promise (A * B) :=
  match outcome p, outcome q with
  | inr a, inr b =>
      {| settledAt := Nat.max (settledAt p) (settledAt q);
         outcome := inr (a, b) |}
  | inl e, inr _ => {| settledAt := settledAt p; outcome := inl e |}
  | inr _, inl e => {| settledAt := settledAt q; outcome := inl e |}
  | inl e1, inl e2 =>
      if (settledAt q <? settledAt p)%nat
      then {| settledAt := settledAt q; outcome := inl e2 |}
      else {| settledAt := settledAt p; outcome := inl e1 |}
  end.

(** [Promise.all([p1, p2, p3, p4])] *)
Definition Promise_all {A B C D : Type}
  (p1 : Promise A) (p2 : Promise B) (p3 : Promise C) (p4 : Promise D)
  : Promise (A * B * C * D) :=
  Promise_both (Promise_both (Promise_both p1 p2) p3) p4.

Section Provider.

(** [EpochSchedule] and [EpochInfo] are types of the RPC client library;
    the provider only stores their values. *)
Context {EpochSchedule EpochInfo : Type}.

(** ** Connection state *)

Record ClusterInfo : Type := {
  firstAvailableBlock : Z;
  epochSchedule : EpochSchedule;
  epochInfo : EpochInfo;
  genesisHash : string
}.

(** [interface State]; the optional [clusterInfo?] is [None] when the
    property is absent. *)
Record State : Type := {
  cluster : Cluster;
  customUrl : string;
  clusterInfo : option ClusterInfo;
  status : ClusterStatus
}.

(** [type Action = State] *)
Definition Action : Type := State.

Definition clusterReducer (state : State) (action : Action) : State :=
  match status action with
  | Connected
  | Failure =>
      if negb (Cluster_eqb (cluster state) (cluster action))
         || negb (customUrl state =? customUrl action)%string
      then state
      else action
  | Connecting => action
  end.

(** The state [ClusterProvider] hands to [React.useReducer] at mount. *)
Definition initialState : State :=
  {| cluster := DEFAULT_CLUSTER;
     customUrl := DEFAULT_CUSTOM_URL;
     clusterInfo := None;
     status := Connecting |}.

(** ** Effects of the connect operation *)

(** What [updateCluster] does to its surroundings, in program order.
    [EvAwait] marks the point where the [async] function suspends; the
    events before it happen within the call itself. *)
Inductive Event : Type :=
| EvDispatch (action : Action)
| EvNewURL (input : string)
| EvNewConnection (endpoint : string)
| EvFetch (request : Fetch)
| EvAwait
| EvReportError (error : Thrown) (context_clusterUrl : string).

(** A [Connection] of the RPC client, as far as the provider uses it:
    the promise each of its four requests returns. *)
Record Connection : Type := {
  rpc_getFirstAvailableBlock : Promise Z;
  rpc_getEpochSchedule : Promise EpochSchedule;
  rpc_getEpochInfo : Promise EpochInfo;
  rpc_getGenesisHash : Promise string
}.

(** The collaborators: the build environment, the platform's [URL]
    constructor ([true] when the input parses) and the constructor of the
    RPC client ([inl] when it throws). *)
Record World : Type := {
  env : Env;
  URL_parses : string -> bool;
  Connection_new : string -> Thrown + Connection
}.

(** Computations that log events and may throw: the log written so far
    survives a throw, so that a [catch] handler continues it. *)
Definition Async (A : Type) : Type := (list Event * (Thrown + A))%type.

Definition Async_ret {A : Type} (a : A) : Async A := ([], inr a).

Definition Async_bind {A B : Type} (c : Async A) (k : A -> Async B)
  : Async B :=
  match c with
  | (log, inl e) => (log, inl e)
  | (log, inr a) => let (log', r) := k a in ((log ++ log')%list, r)
  end.

Definition Async_raise {A : Type} (e : Thrown) : Async A := ([], inl e).

Definition Async_catch {A : Type} (c : Async A) (h : Thrown -> Async A)
  : Async A :=
  match c with
  | (log, inl e) => let (log', r) := h e in ((log ++ log')%list, r)
  | (log, inr a) => (log, inr a)
  end.

#[local] Instance Monad_Async : Monad Async :=
  {| ret := @Async_ret; bind := @Async_bind |}.

#[local] Instance MonadExc_Async : MonadExc Thrown Async :=
  {| raise := @Async_raise; catch := @Async_catch |}.

Definition emit (ev : Event) : Async unit := ([ev], inr tt).

(** [await p] *)
Definition await {A : Type} (p : Promise A) : Async A :=
  emit EvAwait ;;
  match outcome p with
  | inr v => ret v
  | inl e => raise e
  end.

Section Connect.

Variable w : World.

(** [dispatch(action)] *)
Definition dispatch (action : Action) : Async unit :=
  emit (EvDispatch action).

(** [new URL(input)]: throws a [TypeError] on an input that does not
    parse. *)
Definition new_URL (input : string) : Async unit :=
  emit (EvNewURL input) ;;
  if URL_parses w input then ret tt else raise (TypeError "Invalid URL").

(** [new Connection(endpoint)] *)
Definition new_Connection (endpoint : string) : Async Connection :=
  emit (EvNewConnection endpoint) ;;
  match Connection_new w endpoint with
  | inl e => raise e
  | inr connection => ret connection
  end.

(** The four requests: each call issues its request at once and returns
    a promise. *)
Definition getFirstAvailableBlock (connection : Connection)
  : Async (Promise Z) :=
  emit (EvFetch GetFirstAvailableBlock) ;;
  ret (rpc_getFirstAvailableBlock connection).

Definition getEpochSchedule (connection : Connection)
  : Async (Promise EpochSchedule) :=
  emit (EvFetch GetEpochSchedule) ;;
  ret (rpc_getEpochSchedule connection).

Definition getEpochInfo (connection : Connection)
  : Async (Promise EpochInfo) :=
  emit (EvFetch GetEpochInfo) ;;
  ret (rpc_getEpochInfo connection).

Definition getGenesisHash (connection : Connection)
  : Async (Promise string) :=
  emit (EvFetch GetGenesisHash) ;;
  ret (rpc_getGenesisHash connection).

(** [reportError(error, { clusterUrl })] *)
Definition reportError (error : Thrown) (context_clusterUrl : string)
  : Async unit :=
  emit (EvReportError error context_clusterUrl).

Definition updateCluster (cluster : Cluster) (customUrl : string)
  : Async unit :=
  dispatch {| status := Connecting;
              cluster := cluster;
              customUrl := customUrl;
              clusterInfo := None |} ;;
  catch
    (new_URL customUrl ;;
     connection <- new_Connection (clusterUrl (env w) cluster customUrl) ;;
     p1 <- getFirstAvailableBlock connection ;;
     p2 <- getEpochSchedule connection ;;
     p3 <- getEpochInfo connection ;;
     p4 <- getGenesisHash connection ;;
     '(firstAvailableBlock, epochSchedule, epochInfo, genesisHash) <-
       await (Promise_all p1 p2 p3 p4) ;;
     dispatch {| status := Connected;
                 cluster := cluster;
                 customUrl := customUrl;
                 clusterInfo :=
                   Some {| firstAvailableBlock := firstAvailableBlock;
                           genesisHash := genesisHash;
                           epochSchedule := epochSchedule;
                           epochInfo := epochInfo |} |})
    (fun error =>
       (if negb (Cluster_eqb cluster Custom)
        then reportError error (clusterUrl (env w) cluster customUrl)
        else ret tt) ;;
       dispatch {| status := Failure;
                   cluster := cluster;
                   customUrl := customUrl;
                   clusterInfo := None |}).

(** The events of one connect attempt. *)
Definition trace (cluster : Cluster) (customUrl : string) : list Event :=
  fst (updateCluster cluster customUrl).

End Connect.

(** ** The reducer driven by the dispatched actions *)

Definition dispatched (events : list Event) : list Action :=
  flat_map (fun ev => match ev with
                      | EvDispatch a => [a]
                      | _ => []
                      end) events.

(** [React.useReducer]: every dispatched action goes through
    [clusterReducer], in dispatch order. *)
Definition reduce (state : State) (events : list Event) : State :=
  fold_left clusterReducer (dispatched events) state.

(** The calls that reach the RPC client. *)
Definition is_network_call (ev : Event) : bool :=
  match ev with
  | EvNewConnection _ | EvFetch _ => true
  | _ => false
  end.

Definition is_reportError (ev : Event) : bool :=
  match ev with
  | EvReportError _ _ => true
  | _ => false
  end.

Definition has_status (st : ClusterStatus) (a : Action) : bool :=
  match status a, st with
  | Connected, Connected | Connecting, Connecting | Failure, Failure => true
  | _, _ => false
  end.

Definition dispatches_status (st : ClusterStatus) (events : list Event)
  : bool :=
  existsb (has_status st) (dispatched events).

Definition calls_network (events : list Event) : bool :=
  existsb is_network_call events.

Definition reports_error (events : list Event) : bool :=
  existsb is_reportError events.

(** A connect attempt failed when it dispatched a [Failure] action. *)
Definition connect_failed (events : list Event) : bool :=
  dispatches_status Failure events.

(** The three shapes of action [updateCluster] builds. *)
Definition connecting_action (c : Cluster) (url : string) : Action :=
  {| cluster := c; customUrl := url; clusterInfo := None;
     status := Connecting |}.

Definition failure_action (c : Cluster) (url : string) : Action :=
  {| cluster := c; customUrl := url; clusterInfo := None;
     status := Failure |}.

Definition connected_action (c : Cluster) (url : string)
  (info : ClusterInfo) : Action :=
  {| cluster := c; customUrl := url; clusterInfo := Some info;
     status := Connected |}.

(** The events of the [catch] block. *)
Definition catch_events (w : World) (c : Cluster) (url : string)
  (error : Thrown) : list Event :=
  (if negb (Cluster_eqb c Custom)
   then [EvReportError error (clusterUrl (env w) c url)]
   else []) ++ [EvDispatch (failure_action c url)].

(** The events up to the point where the attempt suspends. *)
Definition issue_events (w : World) (c : Cluster) (url : string)
  : list Event :=
  [EvDispatch (connecting_action c url);
   EvNewURL url;
   EvNewConnection (clusterUrl (env w) c url);
   EvFetch GetFirstAvailableBlock;
   EvFetch GetEpochSchedule;
   EvFetch GetEpochInfo;
   EvFetch GetGenesisHash;
   EvAwait].

(** The promise the attempt awaits once a connection exists. *)
Definition joint_promise (connection : Connection)
  : Promise (Z * EpochSchedule * EpochInfo * string) :=
  Promise_all (rpc_getFirstAvailableBlock connection)
              (rpc_getEpochSchedule connection)
              (rpc_getEpochInfo connection)
              (rpc_getGenesisHash connection).

(** The actions the program dispatches: those of some connect attempt,
    whatever the collaborators answer. *)
Definition program_action (a : Action) : Prop :=
  exists (w : World) (cluster : Cluster) (customUrl : string),
    In (EvDispatch a) (trace w cluster customUrl).

(** States the provider can be in. *)
Inductive reachable : State -> Prop :=
| reachable_init : reachable initialState
| reachable_dispatch (s : State) (a : Action) :
    reachable s -> program_action a -> reachable (clusterReducer s a).

End Provider.

Arguments ClusterInfo : clear implicits.
Arguments State : clear implicits.
Arguments Action : clear implicits.
Arguments Event : clear implicits.
Arguments Connection : clear implicits.
Arguments World : clear implicits.

(** ** Sample collaborators

    Concrete worlds on which the properties below are exercised. The
    sample [URL] constructor accepts the absolute [http] and [https]
    inputs, which is all the examples need. *)

Definition sample_env : Env :=
  {| REACT_APP_MAINNET_RPC_URL := None;
     REACT_APP_TESTNET_RPC_URL := None;
     hostname := "explorer.bbachain.com" |}.

Definition sample_URL_parses (input : string) : bool :=
  prefix "http://" input || prefix "https://" input.

Definition fulfilled {A : Type} (t : nat) (v : A) : Promise A :=
  {| settledAt := t; outcome := inr v |}.

Definition rejected {A : Type} (t : nat) (reason : string) : Promise A :=
  {| settledAt := t; outcome := inl (Rejection reason) |}.

(** A node that answers all four requests. *)
Definition healthy_connection : Connection Z Z :=
  {| rpc_getFirstAvailableBlock := fulfilled 3 0%Z;
     rpc_getEpochSchedule := fulfilled 1 432000%Z;
     rpc_getEpochInfo := fulfilled 2 17%Z;
     rpc_getGenesisHash := fulfilled 2 "genesis" |}.

(** A node whose [getEpochInfo] request is rejected. *)
Definition faulty_connection : Connection Z Z :=
  {| rpc_getFirstAvailableBlock := fulfilled 3 0%Z;
     rpc_getEpochSchedule := fulfilled 1 432000%Z;
     rpc_getEpochInfo := rejected 2 "503";
     rpc_getGenesisHash := fulfilled 2 "genesis" |}.

Definition healthy_world : World Z Z :=
  {| env := sample_env;
     URL_parses := sample_URL_parses;
     Connection_new := fun _ => inr healthy_connection |}.

Definition faulty_world : World Z Z :=
  {| env := sample_env;
     URL_parses := sample_URL_parses;
     Connection_new := fun _ => inr faulty_connection |}.

Definition healthy_info : ClusterInfo Z Z :=
  {| firstAvailableBlock := 0%Z;
     epochSchedule := 432000%Z;
     epochInfo := 17%Z;
     genesisHash := "genesis" |}.

(** A state the provider reaches once [healthy_world] has answered the
    first connect attempt. *)
Definition healthy_state : State Z Z :=
  clusterReducer initialState
    (connected_action DEFAULT_CLUSTER DEFAULT_CUSTOM_URL healthy_info).

(** ** Query parameters and the provider's hooks *)

(** [URLSearchParams]: the list of name-value pairs of a query string, in
    the order they are written. A search string is kept as the list it
    denotes. *)
Definition URLSearchParams : Type := list (string * string).

(** [query.get(name)]: the value of the first pair called [name], [null]
    ([None]) when there is none. *)
Definition URLSearchParams_get (query : URLSearchParams) (name : string)
  : option string :=
  match find (fun p => (fst p =? name)%string) query with
  | Some p => Some (snd p)
  | None => None
  end.

(** [query.has(name)] *)
Definition URLSearchParams_has (query : URLSearchParams) (name : string)
  : bool :=
  existsb (fun p => (fst p =? name)%string) query.

(** [query.delete(name)]: every pair called [name] goes. *)
Definition URLSearchParams_delete (query : URLSearchParams) (name : string)
  : URLSearchParams :=
  filter (fun p => negb (fst p =? name)%string) query.

Definition parseQuery (query : URLSearchParams) : Cluster :=
  match URLSearchParams_get query "cluster" with
  | Some clusterParam =>
      if (clusterParam =? "custom")%string then Custom
      else if (clusterParam =? "testnet")%string then Testnet
      else if (clusterParam =? "mainnet-beta")%string then MainnetBeta
      else MainnetBeta
  | None => MainnetBeta
  end.

(** The values the left operand of [||] takes in
    [(enableCustomUrl && query.get("customUrl")) || state.customUrl]. *)
Inductive JsOperand : Type :=
| JsFalse
| JsNull
| JsString (s : string).

(** [false], [null] and the empty string are falsy. *)
Definition truthy (v : JsOperand) : bool :=
  match v with
  | JsFalse | JsNull => false
  | JsString s => negb (s =? "")%string
  end.

(** [enableCustomUrl && param], for a [param] that is a string or
    [null]. *)
Definition js_and (enable : bool) (param : option string) : JsOperand :=
  if enable
  then match param with
       | Some s => JsString s
       | None => JsNull
       end
  else JsFalse.

(** [v || fallback] *)
Definition js_or (v : JsOperand) (fallback : string) : string :=
  match v with
  | JsString s => if truthy v then s else fallback
  | JsFalse | JsNull => fallback
  end.

(** What [ClusterProvider] reads from the browser: whether local storage
    can be used ([localStorageIsAvailable()], a helper of [utils]),
    [localStorage.getItem] and the query of the current location. *)
Record Browser : Type := {
  localStorageIsAvailable : bool;
  localStorage_getItem : string -> option string;
  useQuery : URLSearchParams
}.

Definition enableCustomUrl (b : Browser) : bool :=
  localStorageIsAvailable b
  && match localStorage_getItem b "enableCustomUrl" with
     | Some _ => true
     | None => false
     end.

(** The effect that removes the [customUrl] parameter when the setting
    is off: [Some search] is the search it pushes to the history, [None]
    when it does nothing. *)
Definition removeCustomUrlEffect (b : Browser) : option URLSearchParams :=
  if negb (enableCustomUrl b) && URLSearchParams_has (useQuery b) "customUrl"
  then Some (URLSearchParams_delete (useQuery b) "customUrl")
  else None.

(** What a hook throws outside a [ClusterProvider]: [new Error(message)]. *)
Inductive HookError : Type :=
| Error (message : string).

(** Interleavings of the dispatches of two attempts: each attempt keeps
    its own order. *)
Inductive interleave {A : Type} : list A -> list A -> list A -> Prop :=
| interleave_nil : interleave [] [] []
| interleave_left (x : A) (l1 l2 l : list A) :
    interleave l1 l2 l -> interleave (x :: l1) l2 (x :: l)
| interleave_right (x : A) (l1 l2 l : list A) :
    interleave l1 l2 l -> interleave l1 (x :: l2) (x :: l).

Definition is_fetch {ES EI : Type} (ev : Event ES EI) : bool :=
  match ev with
  | EvFetch _ => true
  | _ => false
  end.

Definition is_await {ES EI : Type} (ev : Event ES EI) : bool :=
  match ev with
  | EvAwait => true
  | _ => false
  end.

(** The value [useCluster] returns: the state with the resolved [url] and
    the display [name]. *)
Module ClusterContext.

Record t (ES EI : Type) : Type := {
  state : State ES EI;
  url : string;
  name : string
}.
Arguments state {ES EI} _.
Arguments url {ES EI} _.
Arguments name {ES EI} _.

End ClusterContext.

Section Hooks.

Context {ES EI : Type}.

(** The (cluster, customUrl) pair a state or an action is about. *)
Definition identity (s : State ES EI) : Cluster * string :=
  (cluster s, customUrl s).

(** The pair of the last Connecting action of [actions], [current] when
    there is none. *)
Fixpoint latest_request (actions : list (Action ES EI))
  (current : Cluster * string) : Cluster * string :=
  match actions with
  | [] => current
  | a :: rest =>
      latest_request rest
        (match status a with
         | Connecting => identity a
         | Connected | Failure => current
         end)
  end.

(** The [customUrl] that [ClusterProvider] computes at a render. *)
Definition ClusterProvider_customUrl (b : Browser) (state : State ES EI)
  : string :=
  js_or (js_and (enableCustomUrl b)
           (URLSearchParams_get (useQuery b) "customUrl"))
        (customUrl state).

(** The reconnect effect of [ClusterProvider], run when [cluster] or
    [customUrl] change. *)
Definition reconnectEffect (w : World ES EI) (b : Browser)
  (state : State ES EI) : @Async ES EI unit :=
  updateCluster w (parseQuery (useQuery b)) (ClusterProvider_customUrl b state).

(** [React.useEffect(effect, [cluster, customUrl])]: the effect runs
    after the first render ([previous] is [None]) and after every render
    whose dependencies differ from those of the render before. *)
Definition useEffect_runs (previous : option (Cluster * string))
  (cluster : Cluster) (customUrl : string) : bool :=
  match previous with
  | None => true
  | Some (cluster0, customUrl0) =>
      negb (Cluster_eqb cluster0 cluster)
      || negb (customUrl0 =? customUrl)%string
  end.

(** What a render of [ClusterProvider] does to the connection: with the
    dependencies of the render before in [previous], it runs the
    reconnect effect when they have changed and nothing otherwise. *)
Definition ClusterProvider_reconnect (w : World ES EI) (b : Browser)
  (state : State ES EI) (previous : option (Cluster * string))
  : @Async ES EI unit :=
  if useEffect_runs previous (parseQuery (useQuery b))
       (ClusterProvider_customUrl b state)
  then reconnectEffect w b state
  else Async_ret tt.

(** The events of a run up to the point where it first suspends. *)
Fixpoint until_await (events : list (Event ES EI)) : list (Event ES EI) :=
  match events with
  | [] => []
  | ev :: rest => if is_await ev then [ev] else ev :: until_await rest
  end.

(** The events of a connect attempt as they are seen from outside. The
    awaited promise need not settle: when it never does ([settles] is
    [false]) the attempt stays suspended at its [await] and only the
    events up to there happen, which do not depend on what the requests
    would have answered. *)
Definition observed (settles : bool) (w : World ES EI) (c : Cluster)
  (url : string) : list (Event ES EI) :=
  if settles then trace w c url else until_await (trace w c url).

(** [useUpdateCustomUrl]; the context holds a dispatch function inside a
    [ClusterProvider] only. *)
Definition useUpdateCustomUrl (w : World ES EI) (inProvider : bool)
  : HookError + (string -> @Async ES EI unit) :=
  if negb inProvider
  then inl (Error "useUpdateCustomUrl must be used within a ClusterProvider")
  else inr (fun customUrl => updateCluster w Custom customUrl).

(** [useCluster]; the context holds the state inside a [ClusterProvider]
    only. *)
Definition useCluster (e : Env) (context : option (State ES EI))
  : HookError + ClusterContext.t ES EI :=
  match context with
  | None => inl (Error "useCluster must be used within a ClusterProvider")
  | Some context =>
      inr {| ClusterContext.state := context;
             ClusterContext.url :=
               clusterUrl e (cluster context) (customUrl context);
             ClusterContext.name := clusterName (cluster context) |}
  end.

End Hooks.

(** A client that refuses every endpoint, as the constructor does for an
    endpoint that is neither [http] nor [https]. *)
Definition refusing_world : World Z Z :=
  {| env := sample_env;
     URL_parses := sample_URL_parses;
     Connection_new :=
       fun _ => inl (TypeError "Endpoint URL must start with http: or https:") |}.

(** A browser with the developer setting off and a query that selects
    the test network and still carries a custom URL. *)
Definition sample_browser : Browser :=
  {| localStorageIsAvailable := true;
     localStorage_getItem := fun _ => None;
     useQuery := [("cluster", "testnet"); ("customUrl", "http://10.0.0.1:8899")] |}.

(** The same query with the developer setting on. *)
Definition dev_browser : Browser :=
  {| localStorageIsAvailable := true;
     localStorage_getItem :=
       fun key => if (key =? "enableCustomUrl")%string then Some "" else None;
     useQuery := [("cluster", "custom"); ("customUrl", "http://10.0.0.1:8899")] |}.

(** * Properties *)

(** ** URL resolution *)

Lemma prefix_app (pat s : string) : prefix pat (pat ++ s) = true.
Proof.
  induction pat as [| c pat IH]; cbn.
  - destruct s; reflexivity.
  - destruct (Ascii.ascii_dec c c) as [_ | Hne]; [exact IH | congruence].
Qed.

Lemma slice_app (pat s : string) : slice (String.length pat) (pat ++ s) = s.
Proof. induction pat as [| c pat IH]; cbn; [reflexivity | exact IH]. Qed.

Lemma replace_unfold (pat rep s : string) :
  replace pat rep s =
  if prefix pat s then rep ++ slice (String.length pat) s
  else match s with
       | EmptyString => EmptyString
       | String c s' => String c (replace pat rep s')
       end.
Proof. destruct s; reflexivity. Qed.

(** [replace] rewrites the first occurrence and nothing else. *)
Lemma replace_first (pat rep pre post : string) :
  no_early_match pat pre (pat ++ post) = true ->
  replace pat rep (pre ++ pat ++ post) = pre ++ rep ++ post.
Proof.
  induction pre as [| c pre IH]; intros Hno.
  - change ("" ++ pat ++ post) with (pat ++ post).
    rewrite replace_unfold, prefix_app, slice_app. reflexivity.
  - cbn [no_early_match] in Hno.
    apply andb_prop in Hno. destruct Hno as [Hhere Hlater].
    apply negb_true_iff in Hhere.
    cbn [append] in Hhere |- *. cbn [replace].
    rewrite Hhere, (IH Hlater). reflexivity.
Qed.

Lemma modifyUrl_MAINNET_URL (e : Env) :
  (hostname e =? "localhost")%string = false ->
  modifyUrl e MAINNET_URL = "https://explorer-api-mainnet.bbachain.com".
Proof.
  intros Hhost. unfold modifyUrl. rewrite Hhost.
  exact (replace_first "api" "explorer-api" "https://"
           "-mainnet.bbachain.com" eq_refl).
Qed.

Lemma modifyUrl_TESTNET_URL (e : Env) :
  (hostname e =? "localhost")%string = false ->
  modifyUrl e TESTNET_URL = "https://explorer-api-testnet.bbachain.com".
Proof.
  intros Hhost. unfold modifyUrl. rewrite Hhost.
  exact (replace_first "api" "explorer-api" "https://"
           "-testnet.bbachain.com" eq_refl).
Qed.

(** C4. [clusterUrl] returns the custom URL as it is for Custom; for
    MainnetBeta and Testnet it returns the environment override when one
    is set, and otherwise the built-in URL, left alone on localhost and
    with its first [api] turned into [explorer-api] on any other host. *)
Theorem clusterUrl_resolution (e : Env) (customUrl : string) :
  clusterUrl e Custom customUrl = customUrl
  /\ (forall u, REACT_APP_MAINNET_RPC_URL e = Some u ->
                clusterUrl e MainnetBeta customUrl = u)
  /\ (forall u, REACT_APP_TESTNET_RPC_URL e = Some u ->
                clusterUrl e Testnet customUrl = u)
  /\ (REACT_APP_MAINNET_RPC_URL e = None -> hostname e = "localhost" ->
      clusterUrl e MainnetBeta customUrl = MAINNET_URL)
  /\ (REACT_APP_TESTNET_RPC_URL e = None -> hostname e = "localhost" ->
      clusterUrl e Testnet customUrl = TESTNET_URL)
  /\ (REACT_APP_MAINNET_RPC_URL e = None -> hostname e <> "localhost" ->
      clusterUrl e MainnetBeta customUrl
      = replace "api" "explorer-api" MAINNET_URL
      /\ clusterUrl e MainnetBeta customUrl
         = "https://explorer-api-mainnet.bbachain.com")
  /\ (REACT_APP_TESTNET_RPC_URL e = None -> hostname e <> "localhost" ->
      clusterUrl e Testnet customUrl
      = replace "api" "explorer-api" TESTNET_URL
      /\ clusterUrl e Testnet customUrl
         = "https://explorer-api-testnet.bbachain.com").
Proof.
  unfold clusterUrl.
  split; [reflexivity |].
  split; [intros u Hu; rewrite Hu; reflexivity |].
  split; [intros u Hu; rewrite Hu; reflexivity |].
  split.
  { intros Hnone Hhost. rewrite Hnone. unfold modifyUrl, nullish.
    rewrite Hhost. reflexivity. }
  split.
  { intros Hnone Hhost. rewrite Hnone. unfold modifyUrl, nullish.
    rewrite Hhost. reflexivity. }
  split; intros Hnone Hhost; apply String.eqb_neq in Hhost;
    rewrite Hnone; cbn [nullish].
  - rewrite (modifyUrl_MAINNET_URL e Hhost). split; reflexivity.
  - rewrite (modifyUrl_TESTNET_URL e Hhost). split; reflexivity.
Qed.

(** ** The reducer *)

Lemma Cluster_eqb_spec (a b : Cluster) : reflect (a = b) (Cluster_eqb a b).
Proof. destruct a, b; constructor; congruence. Qed.

Section ReducerFacts.

Context {ES EI : Type}.

(** The identity test of the reducer, as a proposition: the guard of the
    [if] is false exactly when cluster and custom URL agree. *)
Lemma identity_guard (s a : State ES EI) :
  negb (Cluster_eqb (cluster s) (cluster a))
  || negb (customUrl s =? customUrl a)%string = false
  <-> (cluster a, customUrl a) = (cluster s, customUrl s).
Proof.
  destruct (Cluster_eqb_spec (cluster s) (cluster a)) as [Hc | Hc];
    destruct (String.eqb_spec (customUrl s) (customUrl a)) as [Hu | Hu];
    cbn; split; intros H; try discriminate; try reflexivity;
    try (inversion H; congruence).
Qed.

Lemma clusterReducer_result (s a : State ES EI) :
  status a <> Connecting ->
  clusterReducer s a =
    if negb (Cluster_eqb (cluster s) (cluster a))
       || negb (customUrl s =? customUrl a)%string
    then s else a.
Proof.
  unfold clusterReducer. destruct (status a); congruence.
Qed.

(** C1. For a Connected or Failure action, a (cluster, customUrl) pair
    that differs from the one of the current state leaves the state as it
    is, and a matching pair makes the action the new state. *)
Theorem clusterReducer_drops_stale (s a : State ES EI) :
  status a = Connected \/ status a = Failure ->
  ((cluster a, customUrl a) <> (cluster s, customUrl s) ->
   clusterReducer s a = s)
  /\ ((cluster a, customUrl a) = (cluster s, customUrl s) ->
      clusterReducer s a = a).
Proof.
  intros Hst.
  assert (Hnc : status a <> Connecting) by (destruct Hst; congruence).
  rewrite (clusterReducer_result s a Hnc).
  pose proof (identity_guard s a) as Hg.
  destruct (negb (Cluster_eqb (cluster s) (cluster a))
            || negb (customUrl s =? customUrl a)%string).
  - split; [reflexivity |].
    intros Heq. apply Hg in Heq. discriminate.
  - split; [| reflexivity].
    intros Hne. exfalso. apply Hne, Hg. reflexivity.
Qed.

(** C9. Whether a Connected or Failure action is taken is decided by
    the identity match alone, not by the status or clusterInfo of the
    current state: of two current states with the same
    (cluster, customUrl), both take an action of that identity and both
    drop an action of another one. In particular a Connected state is
    replaced by a Failure action of the same identity. *)
Theorem clusterReducer_ignores_current_status (s1 s2 a : State ES EI) :
  status a = Connected \/ status a = Failure ->
  cluster s1 = cluster s2 ->
  customUrl s1 = customUrl s2 ->
  ((cluster a, customUrl a) = (cluster s1, customUrl s1) ->
   clusterReducer s1 a = a /\ clusterReducer s2 a = a)
  /\ ((cluster a, customUrl a) <> (cluster s1, customUrl s1) ->
      clusterReducer s1 a = s1 /\ clusterReducer s2 a = s2)
  /\ ((clusterReducer s1 a = a /\ clusterReducer s2 a = a)
      \/ (clusterReducer s1 a = s1 /\ clusterReducer s2 a = s2))
  /\ (status s1 = Connected ->
      status a = Failure ->
      (cluster a, customUrl a) = (cluster s1, customUrl s1) ->
      clusterReducer s1 a = a
      /\ status (clusterReducer s1 a) = Failure).
Proof.
  intros Hst Hc Hu.
  assert (Hnc : status a <> Connecting) by (destruct Hst; congruence).
  assert (Htake : (cluster a, customUrl a) = (cluster s1, customUrl s1) ->
                  clusterReducer s1 a = a /\ clusterReducer s2 a = a).
  { intros Hid. apply identity_guard in Hid.
    rewrite (clusterReducer_result s1 a Hnc),
      (clusterReducer_result s2 a Hnc).
    rewrite <- Hc, <- Hu, Hid. split; reflexivity. }
  assert (Hdrop : (cluster a, customUrl a) <> (cluster s1, customUrl s1) ->
                  clusterReducer s1 a = s1 /\ clusterReducer s2 a = s2).
  { intros Hid.
    rewrite (clusterReducer_result s1 a Hnc),
      (clusterReducer_result s2 a Hnc).
    rewrite <- Hc, <- Hu.
    pose proof (identity_guard s1 a) as Hg.
    destruct (negb (Cluster_eqb (cluster s1) (cluster a))
              || negb (customUrl s1 =? customUrl a)%string).
    - split; reflexivity.
    - exfalso. apply Hid, Hg. reflexivity. }
  split; [exact Htake |]. split; [exact Hdrop |]. split.
  - rewrite (clusterReducer_result s1 a Hnc), (clusterReducer_result s2 a Hnc).
    rewrite <- Hc, <- Hu.
    destruct (negb (Cluster_eqb (cluster s1) (cluster a))
              || negb (customUrl s1 =? customUrl a)%string); auto.
  - intros _ Hf Hid.
    apply identity_guard in Hid.
    rewrite (clusterReducer_result s1 a Hnc), Hid.
    split; [reflexivity | exact Hf].
Qed.

End ReducerFacts.

(** ** Joint promises *)

Lemma Promise_both_fulfilled {A B : Type} (p : Promise A) (q : Promise B)
  (a : A) (b : B) :
  outcome (Promise_both p q) = inr (a, b)
  <-> outcome p = inr a /\ outcome q = inr b.
Proof.
  unfold Promise_both.
  destruct (outcome p) as [e1 | a'], (outcome q) as [e2 | b'];
    try destruct (settledAt q <? settledAt p)%nat; cbn;
    (split; [intros H | intros [H1 H2]]); try congruence.
  all: injection H as -> ->; split; reflexivity.
Qed.

Lemma Promise_both_rejected {A B : Type} (p : Promise A) (q : Promise B) :
  (exists e, outcome p = inl e) \/ (exists e, outcome q = inl e) ->
  exists e, outcome (Promise_both p q) = inl e.
Proof.
  unfold Promise_both.
  destruct (outcome p) as [e1 | a'], (outcome q) as [e2 | b'];
    try destruct (settledAt q <? settledAt p)%nat; cbn; eauto.
  all: intros [[e H] | [e H]]; discriminate.
Qed.

Lemma Promise_all_fulfilled {A B C D : Type}
  (p1 : Promise A) (p2 : Promise B) (p3 : Promise C) (p4 : Promise D)
  (a : A) (b : B) (c : C) (d : D) :
  outcome p1 = inr a -> outcome p2 = inr b ->
  outcome p3 = inr c -> outcome p4 = inr d ->
  outcome (Promise_all p1 p2 p3 p4) = inr (a, b, c, d).
Proof.
  intros H1 H2 H3 H4. unfold Promise_all.
  repeat (apply Promise_both_fulfilled; split); assumption.
Qed.

Lemma Promise_all_rejected {A B C D : Type}
  (p1 : Promise A) (p2 : Promise B) (p3 : Promise C) (p4 : Promise D) :
  (exists e, outcome p1 = inl e) \/ (exists e, outcome p2 = inl e)
  \/ (exists e, outcome p3 = inl e) \/ (exists e, outcome p4 = inl e) ->
  exists e, outcome (Promise_all p1 p2 p3 p4) = inl e.
Proof.
  intros H. unfold Promise_all.
  destruct H as [H | [H | [H | H]]].
  - do 3 (apply Promise_both_rejected; left).
    exact H.
  - do 2 (apply Promise_both_rejected; left).
    apply Promise_both_rejected; right. exact H.
  - apply Promise_both_rejected; left.
    apply Promise_both_rejected; right. exact H.
  - apply Promise_both_rejected; right. exact H.
Qed.

(** ** The connect operation *)

Section ConnectFacts.

Context {ES EI : Type}.
Variable w : World ES EI.

(** The whole trace of a connect attempt, branch by branch. *)
Lemma trace_unfold (c : Cluster) (url : string) :
  trace w c url =
  EvDispatch (connecting_action c url) :: EvNewURL url ::
  if URL_parses w url then
    EvNewConnection (clusterUrl (env w) c url) ::
    match Connection_new w (clusterUrl (env w) c url) with
    | inl e => catch_events w c url e
    | inr connection =>
        EvFetch GetFirstAvailableBlock :: EvFetch GetEpochSchedule ::
        EvFetch GetEpochInfo :: EvFetch GetGenesisHash :: EvAwait ::
        match outcome (joint_promise connection) with
        | inl e => catch_events w c url e
        | inr (fab, es, ei, gh) =>
            [EvDispatch
               (connected_action c url
                  {| firstAvailableBlock := fab; epochSchedule := es;
                     epochInfo := ei; genesisHash := gh |})]
        end
    end
  else catch_events w c url (TypeError "Invalid URL").
Proof.
  unfold trace, updateCluster, catch_events, joint_promise.
  cbn.
  destruct (URL_parses w url); cbn.
  - destruct (Connection_new w (clusterUrl (env w) c url)) as [e | conn]; cbn.
    + destruct (Cluster_eqb c Custom); reflexivity.
    + destruct (outcome (Promise_all _ _ _ _)) as [e | [[[fab es] ei] gh]];
        cbn.
      * destruct (Cluster_eqb c Custom); reflexivity.
      * reflexivity.
  - destruct (Cluster_eqb c Custom); reflexivity.
Qed.

Lemma dispatched_dispatch (a : Action ES EI) (events : list (Event ES EI)) :
  dispatched (EvDispatch a :: events) = a :: dispatched events.
Proof. reflexivity. Qed.

Lemma dispatched_other (ev : Event ES EI) (events : list (Event ES EI)) :
  match ev with EvDispatch _ => False | _ => True end ->
  dispatched (ev :: events) = dispatched events.
Proof. destruct ev; intros H; [destruct H | reflexivity ..]. Qed.

(** A result dispatched right after the Connecting action of the same
    attempt is taken, whatever the state was before the attempt. *)
Lemma reducer_takes_own_result (s a : State ES EI) (c : Cluster)
  (url : string) :
  cluster a = c -> customUrl a = url ->
  clusterReducer (clusterReducer s (connecting_action c url)) a = a.
Proof.
  intros Hc Hu. unfold clusterReducer at 1. cbn.
  rewrite Hc, Hu, String.eqb_refl.
  destruct c; destruct (status a); reflexivity.
Qed.

Lemma catch_events_no_network_call (c : Cluster) (url : string)
  (e : Thrown) :
  calls_network (catch_events w c url e) = false.
Proof. unfold catch_events. destruct c; reflexivity. Qed.

Lemma catch_events_dispatched (c : Cluster) (url : string) (e : Thrown) :
  dispatched (catch_events w c url e) = [failure_action c url].
Proof. unfold catch_events. destruct c; reflexivity. Qed.

Lemma catch_events_report (c : Cluster) (url : string) (e : Thrown) :
  reports_error (catch_events w c url e)
  = negb (Cluster_eqb c Custom).
Proof. unfold catch_events. destruct c; reflexivity. Qed.

(** C2. On the Custom cluster a custom URL that does not parse makes the
    attempt dispatch Failure right after Connecting, with no connection
    opened and no request issued; the reducer ends in the Failure
    state. *)
Theorem updateCluster_malformed_custom (url : string) :
  URL_parses w url = false ->
  trace w Custom url =
    [EvDispatch (connecting_action Custom url);
     EvNewURL url;
     EvDispatch (failure_action Custom url)]
  /\ calls_network (trace w Custom url) = false
  /\ (forall s, reduce s (trace w Custom url) = failure_action Custom url).
Proof.
  intros Hurl. rewrite trace_unfold, Hurl.
  split; [reflexivity |]. split; [reflexivity |].
  intros s. unfold reduce. cbn [catch_events dispatched flat_map app
                                 Cluster_eqb negb fold_left].
  apply reducer_takes_own_result; reflexivity.
Qed.

(** C10. The custom URL is validated for every cluster: when it does not
    parse, the attempt dispatches Connecting then Failure and reaches
    neither the connection nor any of the four requests, also for
    MainnetBeta and Testnet, whose endpoint is not the custom URL. *)
Theorem updateCluster_validates_for_every_cluster (c : Cluster)
  (url : string) :
  URL_parses w url = false ->
  dispatched (trace w c url) = [connecting_action c url; failure_action c url]
  /\ calls_network (trace w c url) = false
  /\ (forall s, reduce s (trace w c url) = failure_action c url).
Proof.
  intros Hurl. rewrite trace_unfold, Hurl.
  assert (Hd : dispatched
                 (EvDispatch (connecting_action c url) :: EvNewURL url
                  :: catch_events w c url (TypeError "Invalid URL"))
               = [connecting_action c url; failure_action c url]).
  { rewrite dispatched_dispatch, dispatched_other by exact I.
    rewrite catch_events_dispatched. reflexivity. }
  split; [exact Hd |]. split.
  - cbn. apply catch_events_no_network_call.
  - intros s. unfold reduce. rewrite Hd. cbn [fold_left].
    apply reducer_takes_own_result; reflexivity.
Qed.

(** C3. When a connect attempt fails, the error is reported exactly when
    the cluster is not Custom. *)
Theorem reportError_iff_not_custom (c : Cluster) (url : string) :
  connect_failed (trace w c url) = true ->
  (reports_error (trace w c url) = true <-> c <> Custom).
Proof.
  rewrite trace_unfold.
  assert (Hneg : forall e,
             reports_error (catch_events w c url e) = true <-> c <> Custom).
  { intros e. rewrite catch_events_report.
    destruct c; cbn; split; congruence. }
  destruct (URL_parses w url).
  - destruct (Connection_new w (clusterUrl (env w) c url)) as [e | conn].
    + intros _. exact (Hneg e).
    + destruct (outcome (joint_promise conn)) as [e | [[[fab es] ei] gh]].
      * intros _. exact (Hneg e).
      * discriminate.
  - intros _. exact (Hneg _).
Qed.

(** C5. When the custom URL parses, the connection is constructed and
    its four requests are fulfilled, the attempt dispatches, after
    Connecting, a Connected action whose clusterInfo holds the four
    fetched values. *)
Theorem updateCluster_success (c : Cluster) (url : string)
  (connection : Connection ES EI)
  (fab : Z) (es : ES) (ei : EI) (gh : string) :
  URL_parses w url = true ->
  Connection_new w (clusterUrl (env w) c url) = inr connection ->
  outcome (rpc_getFirstAvailableBlock connection) = inr fab ->
  outcome (rpc_getEpochSchedule connection) = inr es ->
  outcome (rpc_getEpochInfo connection) = inr ei ->
  outcome (rpc_getGenesisHash connection) = inr gh ->
  let result :=
    {| cluster := c;
       customUrl := url;
       clusterInfo := Some {| firstAvailableBlock := fab;
                              epochSchedule := es;
                              epochInfo := ei;
                              genesisHash := gh |};
       status := Connected |} in
  dispatched (trace w c url) = [connecting_action c url; result]
  /\ (forall s, reduce s (trace w c url) = result).
Proof.
  intros Hurl Hconn H1 H2 H3 H4 result.
  rewrite trace_unfold, Hurl, Hconn.
  unfold joint_promise.
  rewrite (Promise_all_fulfilled _ _ _ _ _ _ _ _ H1 H2 H3 H4).
  split; [reflexivity |].
  intros s. unfold reduce. cbn [dispatched flat_map app fold_left].
  apply reducer_takes_own_result; reflexivity.
Qed.

(** C8. The four requests are issued together and awaited once; when any
    of them is rejected the attempt runs its catch block, so that it
    dispatches Failure and never Connected. *)
Theorem updateCluster_fetches_fail_as_unit (c : Cluster) (url : string)
  (connection : Connection ES EI) :
  URL_parses w url = true ->
  Connection_new w (clusterUrl (env w) c url) = inr connection ->
  (exists e, outcome (rpc_getFirstAvailableBlock connection) = inl e)
  \/ (exists e, outcome (rpc_getEpochSchedule connection) = inl e)
  \/ (exists e, outcome (rpc_getEpochInfo connection) = inl e)
  \/ (exists e, outcome (rpc_getGenesisHash connection) = inl e) ->
  (exists e,
      trace w c url
      = (issue_events w c url ++ catch_events w c url e)%list)
  /\ dispatched (trace w c url)
     = [connecting_action c url; failure_action c url]
  /\ dispatches_status Connected (trace w c url) = false.
Proof.
  intros Hurl Hconn Hrej.
  apply Promise_all_rejected in Hrej. destruct Hrej as [e He].
  rewrite trace_unfold, Hurl, Hconn.
  unfold joint_promise. rewrite He.
  assert (Hd : dispatched
                 (issue_events w c url ++ catch_events w c url e)
               = [connecting_action c url; failure_action c url]).
  { unfold issue_events. cbn [app].
    rewrite dispatched_dispatch.
    repeat rewrite dispatched_other by exact I.
    rewrite catch_events_dispatched. reflexivity. }
  split; [exists e; reflexivity |].
  change (EvDispatch (connecting_action c url) :: EvNewURL url
          :: EvNewConnection (clusterUrl (env w) c url)
          :: EvFetch GetFirstAvailableBlock :: EvFetch GetEpochSchedule
          :: EvFetch GetEpochInfo :: EvFetch GetGenesisHash :: EvAwait
          :: catch_events w c url e)
    with (issue_events w c url ++ catch_events w c url e)%list.
  split; [exact Hd |].
  unfold dispatches_status. rewrite Hd. reflexivity.
Qed.

(** C7. A Connecting action always becomes the state, and a connect
    attempt starts by dispatching one for the requested cluster and
    custom URL: it is the first event of the attempt, ahead of the URL
    check, of every call to the RPC client and of the point where the
    attempt suspends, so the state is Connecting right then. A render of
    the provider whose dependencies have changed starts such an attempt
    for the cluster of the query, and a render whose cluster differs from
    the one before is one of these: switching cluster moves the state to
    Connecting, for the new cluster, within the call of the effect. *)
Theorem connecting_is_unconditional_and_first (s a : State ES EI)
  (c : Cluster) (url : string) (b : Browser)
  (previous : option (Cluster * string)) :
  status a = Connecting ->
  clusterReducer s a = a
  /\ (exists rest,
        trace w c url = EvDispatch (connecting_action c url) :: rest)
  /\ reduce s (firstn 1 (trace w c url)) = connecting_action c url
  /\ status (reduce s (firstn 1 (trace w c url))) = Connecting
  /\ (useEffect_runs previous (parseQuery (useQuery b))
        (ClusterProvider_customUrl b s) = true ->
      (exists rest,
          fst (ClusterProvider_reconnect w b s previous)
          = EvDispatch
              (connecting_action (parseQuery (useQuery b))
                 (ClusterProvider_customUrl b s)) :: rest)
      /\ reduce s (firstn 1 (fst (ClusterProvider_reconnect w b s previous)))
         = connecting_action (parseQuery (useQuery b))
             (ClusterProvider_customUrl b s)
      /\ hd_error (until_await (fst (ClusterProvider_reconnect w b s previous)))
         = Some (EvDispatch
                   (connecting_action (parseQuery (useQuery b))
                      (ClusterProvider_customUrl b s))))
  /\ (forall c0 u0,
        previous = Some (c0, u0) ->
        c0 <> parseQuery (useQuery b) ->
        useEffect_runs previous (parseQuery (useQuery b))
          (ClusterProvider_customUrl b s) = true
        /\ status
             (reduce s
                (firstn 1 (fst (ClusterProvider_reconnect w b s previous))))
           = Connecting
        /\ cluster
             (reduce s
                (firstn 1 (fst (ClusterProvider_reconnect w b s previous))))
           = parseQuery (useQuery b)).
Proof.
  intros Hst.
  assert (Hrun : useEffect_runs previous (parseQuery (useQuery b))
                   (ClusterProvider_customUrl b s) = true ->
                 exists rest,
                   fst (ClusterProvider_reconnect w b s previous)
                   = EvDispatch
                       (connecting_action (parseQuery (useQuery b))
                          (ClusterProvider_customUrl b s)) :: rest).
  { intros Hruns. unfold ClusterProvider_reconnect. rewrite Hruns.
    unfold reconnectEffect.
    change (fst (updateCluster w (parseQuery (useQuery b))
                   (ClusterProvider_customUrl b s)))
      with (trace w (parseQuery (useQuery b))
              (ClusterProvider_customUrl b s)).
    rewrite trace_unfold. eexists. reflexivity. }
  assert (Hswitch : forall c0 u0,
             previous = Some (c0, u0) ->
             c0 <> parseQuery (useQuery b) ->
             useEffect_runs previous (parseQuery (useQuery b))
               (ClusterProvider_customUrl b s) = true).
  { intros c0 u0 -> Hne. cbn [useEffect_runs].
    destruct (Cluster_eqb_spec c0 (parseQuery (useQuery b)));
      [contradiction | reflexivity]. }
  split; [unfold clusterReducer; rewrite Hst; reflexivity |].
  split; [rewrite trace_unfold; eexists; reflexivity |].
  split; [rewrite trace_unfold; reflexivity |].
  split; [rewrite trace_unfold; reflexivity |].
  split.
  - intros Hruns. destruct (Hrun Hruns) as [rest Hrest].
    split; [exists rest; exact Hrest |].
    rewrite Hrest. split; reflexivity.
  - intros c0 u0 Hprev Hne.
    pose proof (Hswitch c0 u0 Hprev Hne) as Hruns.
    destruct (Hrun Hruns) as [rest Hrest].
    split; [exact Hruns |].
    rewrite Hrest. split; reflexivity.
Qed.

End ConnectFacts.

(** ** Reachable states *)

Section ReachableFacts.

Context {ES EI : Type}.

Lemma clusterReducer_either (s a : State ES EI) :
  clusterReducer s a = s \/ clusterReducer s a = a.
Proof.
  unfold clusterReducer.
  destruct (status a); auto;
    destruct (negb (Cluster_eqb (cluster s) (cluster a))
              || negb (customUrl s =? customUrl a)%string); auto.
Qed.

Lemma In_catch_events (w : World ES EI) (c : Cluster) (url : string)
  (e : Thrown) (a : Action ES EI) :
  In (EvDispatch a) (catch_events w c url e) -> a = failure_action c url.
Proof.
  unfold catch_events.
  destruct (negb (Cluster_eqb c Custom)); cbn;
    intros H; repeat (destruct H as [H | H]);
    first [contradiction | congruence].
Qed.

(** Every action of a connect attempt is one of the three the source
    builds. *)
Lemma program_action_shape (a : Action ES EI) :
  program_action a ->
  exists c url,
    a = connecting_action c url
    \/ a = failure_action c url
    \/ exists info, a = connected_action c url info.
Proof.
  intros (w & c & url & Hin). exists c, url.
  rewrite trace_unfold in Hin.
  destruct Hin as [Hin | [Hin | Hin]]; [left; congruence | discriminate |].
  destruct (URL_parses w url).
  - destruct Hin as [Hin | Hin]; [discriminate |].
    destruct (Connection_new w (clusterUrl (env w) c url)) as [e | conn].
    + right; left. exact (In_catch_events w c url e a Hin).
    + do 5 (destruct Hin as [Hin | Hin]; [discriminate |]).
      destruct (outcome (joint_promise conn)) as [e | [[[fab es] ei] gh]].
      * right; left. exact (In_catch_events w c url e a Hin).
      * destruct Hin as [Hin | []].
        right; right. eexists. symmetry. injection Hin as Hin. exact Hin.
  - right; left. exact (In_catch_events w c url _ a Hin).
Qed.

Lemma program_action_info (a : Action ES EI) :
  program_action a -> (clusterInfo a <> None <-> status a = Connected).
Proof.
  intros Ha. apply program_action_shape in Ha.
  destruct Ha as (c & url & [-> | [-> | [info ->]]]); cbn;
    split; congruence.
Qed.

Lemma reachable_info (s : State ES EI) :
  reachable s -> (clusterInfo s <> None <-> status s = Connected).
Proof.
  induction 1 as [| s a Hs IH Ha].
  - cbn. split; congruence.
  - destruct (clusterReducer_either s a) as [-> | ->];
      [exact IH | exact (program_action_info a Ha)].
Qed.

(** C6. In every state reached from the initial state through the
    actions of connect attempts, clusterInfo is present only when the
    status is Connected: a Connecting or Failure state carries none. *)
Theorem clusterInfo_only_when_connected (s : State ES EI) :
  reachable s ->
  (forall info, clusterInfo s = Some info -> status s = Connected)
  /\ (status s = Connecting \/ status s = Failure -> clusterInfo s = None).
Proof.
  intros Hs. pose proof (reachable_info s Hs) as [Hto _].
  split.
  - intros info Hinfo. apply Hto. congruence.
  - intros Hst. destruct (clusterInfo s) as [info |]; [| reflexivity].
    assert (Hc : status s = Connected) by (apply Hto; discriminate).
    destruct Hst; congruence.
Qed.

End ReachableFacts.

(** ** The properties on concrete runs *)

Lemma healthy_state_reachable : reachable healthy_state.
Proof.
  unfold healthy_state. apply reachable_dispatch; [apply reachable_init |].
  exists healthy_world, DEFAULT_CLUSTER, DEFAULT_CUSTOM_URL.
  vm_compute. repeat (first [left; reflexivity | right]).
Qed.

Lemma clusterReducer_drops_stale_witness :
  clusterReducer (connecting_action Testnet DEFAULT_CUSTOM_URL)
    (connected_action MainnetBeta DEFAULT_CUSTOM_URL healthy_info)
  = connecting_action Testnet DEFAULT_CUSTOM_URL
  /\ clusterReducer (connecting_action MainnetBeta DEFAULT_CUSTOM_URL)
       (connected_action MainnetBeta DEFAULT_CUSTOM_URL healthy_info)
     = connected_action MainnetBeta DEFAULT_CUSTOM_URL healthy_info.
Proof.
  split.
  - apply (proj1 (clusterReducer_drops_stale
                    (connecting_action Testnet DEFAULT_CUSTOM_URL)
                    (connected_action MainnetBeta DEFAULT_CUSTOM_URL
                       healthy_info)
                    (or_introl eq_refl))).
    discriminate.
  - apply (proj2 (clusterReducer_drops_stale
                    (connecting_action MainnetBeta DEFAULT_CUSTOM_URL)
                    (connected_action MainnetBeta DEFAULT_CUSTOM_URL
                       healthy_info)
                    (or_introl eq_refl))).
    reflexivity.
Defined.

Lemma clusterReducer_ignores_current_status_witness :
  clusterReducer
    (connected_action MainnetBeta DEFAULT_CUSTOM_URL healthy_info)
    (failure_action MainnetBeta DEFAULT_CUSTOM_URL)
  = failure_action MainnetBeta DEFAULT_CUSTOM_URL
  /\ clusterReducer
       (connected_action MainnetBeta DEFAULT_CUSTOM_URL healthy_info)
       (failure_action Testnet DEFAULT_CUSTOM_URL)
     = connected_action MainnetBeta DEFAULT_CUSTOM_URL healthy_info
  /\ clusterReducer
       (connecting_action MainnetBeta DEFAULT_CUSTOM_URL)
       (failure_action Testnet DEFAULT_CUSTOM_URL)
     = (connecting_action MainnetBeta DEFAULT_CUSTOM_URL : State Z Z).
Proof.
  split.
  - apply (proj2 (proj2 (proj2
             (clusterReducer_ignores_current_status
                (connected_action MainnetBeta DEFAULT_CUSTOM_URL
                   healthy_info)
                (connecting_action MainnetBeta DEFAULT_CUSTOM_URL)
                (failure_action MainnetBeta DEFAULT_CUSTOM_URL)
                (or_intror eq_refl) eq_refl eq_refl))));
      reflexivity.
  - apply (proj1 (proj2
             (clusterReducer_ignores_current_status
                (connected_action MainnetBeta DEFAULT_CUSTOM_URL
                   healthy_info)
                (connecting_action MainnetBeta DEFAULT_CUSTOM_URL)
                (failure_action Testnet DEFAULT_CUSTOM_URL)
                (or_intror eq_refl) eq_refl eq_refl))).
    discriminate.
Defined.

Lemma clusterUrl_resolution_witness :
  clusterUrl sample_env MainnetBeta DEFAULT_CUSTOM_URL
  = "https://explorer-api-mainnet.bbachain.com"
  /\ clusterUrl sample_env Custom DEFAULT_CUSTOM_URL = DEFAULT_CUSTOM_URL.
Proof.
  destruct (clusterUrl_resolution sample_env DEFAULT_CUSTOM_URL)
    as (Hcustom & _ & _ & _ & _ & Hmain & _).
  split; [| exact Hcustom].
  apply Hmain; [reflexivity | discriminate].
Defined.

Lemma updateCluster_malformed_custom_witness :
  URL_parses healthy_world "not a url" = false
  /\ trace healthy_world Custom "not a url" =
       [EvDispatch (connecting_action Custom "not a url");
        EvNewURL "not a url";
        EvDispatch (failure_action Custom "not a url")]
  /\ calls_network (trace healthy_world Custom "not a url") = false.
Proof.
  split; [reflexivity |].
  destruct (updateCluster_malformed_custom healthy_world "not a url"
              eq_refl) as (Htrace & Hnet & _).
  split; [exact Htrace | exact Hnet].
Defined.

Lemma updateCluster_validates_for_every_cluster_witness :
  URL_parses healthy_world "not a url" = false
  /\ dispatched (trace healthy_world MainnetBeta "not a url")
     = [connecting_action MainnetBeta "not a url";
        failure_action MainnetBeta "not a url"]
  /\ calls_network (trace healthy_world MainnetBeta "not a url") = false.
Proof.
  split; [reflexivity |].
  destruct (updateCluster_validates_for_every_cluster healthy_world
              MainnetBeta "not a url" eq_refl) as (Hd & Hnet & _).
  split; [exact Hd | exact Hnet].
Defined.

Lemma reportError_iff_not_custom_witness :
  connect_failed (trace faulty_world Testnet DEFAULT_CUSTOM_URL) = true
  /\ reports_error (trace faulty_world Testnet DEFAULT_CUSTOM_URL) = true
  /\ connect_failed (trace faulty_world Custom DEFAULT_CUSTOM_URL) = true
  /\ reports_error (trace faulty_world Custom DEFAULT_CUSTOM_URL) <> true.
Proof.
  split; [reflexivity |]. split.
  - apply (reportError_iff_not_custom faulty_world Testnet
             DEFAULT_CUSTOM_URL eq_refl).
    discriminate.
  - split; [reflexivity |].
    intros Hrep.
    apply (reportError_iff_not_custom faulty_world Custom
             DEFAULT_CUSTOM_URL eq_refl) in Hrep.
    apply Hrep. reflexivity.
Defined.

Lemma updateCluster_success_witness :
  dispatched (trace healthy_world MainnetBeta DEFAULT_CUSTOM_URL)
  = [connecting_action MainnetBeta DEFAULT_CUSTOM_URL;
     connected_action MainnetBeta DEFAULT_CUSTOM_URL healthy_info]
  /\ (forall s,
        reduce s (trace healthy_world MainnetBeta DEFAULT_CUSTOM_URL)
        = connected_action MainnetBeta DEFAULT_CUSTOM_URL healthy_info).
Proof.
  exact (updateCluster_success healthy_world MainnetBeta DEFAULT_CUSTOM_URL
           healthy_connection 0%Z 432000%Z 17%Z "genesis"
           eq_refl eq_refl eq_refl eq_refl eq_refl eq_refl).
Defined.

Lemma updateCluster_fetches_fail_as_unit_witness :
  dispatched (trace faulty_world Testnet DEFAULT_CUSTOM_URL)
  = [connecting_action Testnet DEFAULT_CUSTOM_URL;
     failure_action Testnet DEFAULT_CUSTOM_URL]
  /\ dispatches_status Connected
       (trace faulty_world Testnet DEFAULT_CUSTOM_URL) = false.
Proof.
  apply (updateCluster_fetches_fail_as_unit faulty_world Testnet
           DEFAULT_CUSTOM_URL faulty_connection eq_refl eq_refl).
  right; right; left. exists (Rejection "503"). reflexivity.
Defined.

Lemma connecting_is_unconditional_and_first_witness :
  clusterReducer healthy_state (connecting_action Testnet DEFAULT_CUSTOM_URL)
  = connecting_action Testnet DEFAULT_CUSTOM_URL
  /\ status (reduce healthy_state
               (firstn 1 (trace faulty_world Testnet DEFAULT_CUSTOM_URL)))
     = Connecting
  /\ parseQuery (useQuery sample_browser) = Testnet
  /\ cluster
       (reduce healthy_state
          (firstn 1
             (fst (ClusterProvider_reconnect faulty_world sample_browser
                     healthy_state
                     (Some (MainnetBeta, DEFAULT_CUSTOM_URL))))))
     = Testnet
  /\ status
       (reduce healthy_state
          (firstn 1
             (fst (ClusterProvider_reconnect faulty_world sample_browser
                     healthy_state
                     (Some (MainnetBeta, DEFAULT_CUSTOM_URL))))))
     = Connecting.
Proof.
  destruct (connecting_is_unconditional_and_first faulty_world healthy_state
              (connecting_action Testnet DEFAULT_CUSTOM_URL)
              Testnet DEFAULT_CUSTOM_URL sample_browser
              (Some (MainnetBeta, DEFAULT_CUSTOM_URL)) eq_refl)
    as (Hred & _ & _ & Hst & _ & Hswitch).
  split; [exact Hred |]. split; [exact Hst |]. split; [reflexivity |].
  destruct (Hswitch MainnetBeta DEFAULT_CUSTOM_URL eq_refl)
    as (_ & Hstatus & Hcluster).
  - discriminate.
  - split; [exact Hcluster | exact Hstatus].
Defined.

Lemma clusterInfo_only_when_connected_witness :
  reachable healthy_state
  /\ clusterInfo healthy_state = Some healthy_info
  /\ status healthy_state = Connected.
Proof.
  split; [exact healthy_state_reachable |].
  split; [reflexivity |].
  apply (proj1 (clusterInfo_only_when_connected healthy_state
                  healthy_state_reachable) healthy_info).
  reflexivity.
Defined.

(** ** More on the reducer *)

Section ReducerExtras.

Context {ES EI : Type}.

Lemma clusterReducer_keeps_identity (s a : State ES EI) :
  status a <> Connecting ->
  identity (clusterReducer s a) = identity s.
Proof.
  intros Hnc. rewrite (clusterReducer_result s a Hnc).
  destruct (negb (Cluster_eqb (cluster s) (cluster a))
            || negb (customUrl s =? customUrl a)%string) eqn:Hguard.
  - reflexivity.
  - apply identity_guard in Hguard. exact Hguard.
Qed.

(** X1. Dispatching the same action twice in a row is the same as
    dispatching it once. *)
Theorem clusterReducer_idempotent (s a : State ES EI) :
  clusterReducer (clusterReducer s a) a = clusterReducer s a.
Proof.
  destruct (status a) eqn:Hst.
  - assert (Hnc : status a <> Connecting) by congruence.
    rewrite (clusterReducer_result s a Hnc).
    destruct (negb (Cluster_eqb (cluster s) (cluster a))
              || negb (customUrl s =? customUrl a)%string) eqn:Hguard.
    + rewrite (clusterReducer_result s a Hnc), Hguard. reflexivity.
    + rewrite (clusterReducer_result a a Hnc).
      rewrite (proj2 (identity_guard a a) eq_refl). reflexivity.
  - unfold clusterReducer. rewrite Hst. reflexivity.
  - assert (Hnc : status a <> Connecting) by congruence.
    rewrite (clusterReducer_result s a Hnc).
    destruct (negb (Cluster_eqb (cluster s) (cluster a))
              || negb (customUrl s =? customUrl a)%string) eqn:Hguard.
    + rewrite (clusterReducer_result s a Hnc), Hguard. reflexivity.
    + rewrite (clusterReducer_result a a Hnc).
      rewrite (proj2 (identity_guard a a) eq_refl). reflexivity.
Qed.

(** X2. Whatever actions are dispatched, in whatever order, the
    (cluster, customUrl) of the state is the one of the last Connecting
    action: results never move the state to another request. *)
Theorem state_follows_latest_request (actions : list (Action ES EI))
  (s : State ES EI) :
  identity (fold_left clusterReducer actions s)
  = latest_request actions (identity s).
Proof.
  revert s. induction actions as [| a rest IH]; intros s.
  - reflexivity.
  - cbn [fold_left latest_request]. rewrite IH. f_equal.
    destruct (status a) eqn:Hst.
    + apply clusterReducer_keeps_identity. congruence.
    + unfold clusterReducer. rewrite Hst. reflexivity.
    + apply clusterReducer_keeps_identity. congruence.
Qed.

End ReducerExtras.

(** ** More on the connect operation *)

Section ConnectExtras.

Context {ES EI : Type}.
Variable w : World ES EI.

(** The dispatches of one attempt. *)
Lemma attempt_outcome (c : Cluster) (u : string) :
  exists result : Action ES EI,
    dispatched (trace w c u) = [connecting_action c u; result]
    /\ cluster result = c
    /\ customUrl result = u
    /\ (status result = Connected \/ status result = Failure)
    /\ (forall s, reduce s (trace w c u) = result).
Proof.
  assert (Hfrom : forall result : Action ES EI,
             dispatched (trace w c u) = [connecting_action c u; result] ->
             cluster result = c -> customUrl result = u ->
             forall s, reduce s (trace w c u) = result).
  { intros result Hd Hc Hu s. unfold reduce. rewrite Hd. cbn [fold_left].
    apply reducer_takes_own_result; assumption. }
  assert (Hcatch : forall e pre,
             dispatched pre = [connecting_action c u] ->
             dispatched (pre ++ catch_events w c u e)
             = [connecting_action c u; failure_action c u]).
  { intros e pre Hpre. unfold dispatched in *. rewrite flat_map_app, Hpre.
    fold (@dispatched ES EI (catch_events w c u e)).
    rewrite catch_events_dispatched. reflexivity. }
  pose proof (trace_unfold w c u) as Htr.
  destruct (URL_parses w u).
  - destruct (Connection_new w (clusterUrl (env w) c u)) as [e | conn].
    + exists (failure_action c u).
      assert (Hd : dispatched (trace w c u)
                   = [connecting_action c u; failure_action c u]).
      { rewrite Htr.
        exact (Hcatch e [EvDispatch (connecting_action c u); EvNewURL u;
                         EvNewConnection (clusterUrl (env w) c u)]
                 eq_refl). }
      repeat split; auto.
    + destruct (outcome (joint_promise conn)) as [e | [[[fab es] ei] gh]].
      * exists (failure_action c u).
        assert (Hd : dispatched (trace w c u)
                     = [connecting_action c u; failure_action c u]).
        { rewrite Htr. exact (Hcatch e (issue_events w c u) eq_refl). }
        repeat split; auto.
      * eexists. rewrite Htr.
        split; [reflexivity |]. split; [reflexivity |].
        split; [reflexivity |]. split; [left; reflexivity |].
        rewrite <- Htr. apply Hfrom; [rewrite Htr |..]; reflexivity.
  - exists (failure_action c u).
    assert (Hd : dispatched (trace w c u)
                 = [connecting_action c u; failure_action c u]).
    { rewrite Htr.
      exact (Hcatch _ [EvDispatch (connecting_action c u); EvNewURL u]
               eq_refl). }
    repeat split; auto.
Qed.

Lemma until_await_no_await (events : list (Event ES EI)) :
  existsb is_await events = false -> until_await events = events.
Proof.
  induction events as [| ev rest IH]; [reflexivity |].
  cbn [existsb until_await]. intros H.
  apply orb_false_iff in H. destruct H as [Hev Hrest].
  rewrite Hev, (IH Hrest). reflexivity.
Qed.

Lemma catch_events_no_await (c : Cluster) (u : string) (e : Thrown) :
  existsb is_await (catch_events w c u e) = false.
Proof. unfold catch_events. destruct c; reflexivity. Qed.

(** X3. Left alone, a connect attempt that runs to its end dispatches
    exactly two actions, Connecting and then one result, Connected or
    Failure, both for the requested cluster and custom URL, and the
    reducer ends in that result from any state. An attempt that has
    issued its requests and whose awaited promise never settles has
    dispatched Connecting only, and the state stays Connecting. An
    attempt whose custom URL does not parse, or whose client constructor
    throws, never waits: it ends whatever the network does. *)
Theorem attempt_settles_or_stays_connecting (c : Cluster) (u : string) :
  (exists result : Action ES EI,
      dispatched (observed true w c u) = [connecting_action c u; result]
      /\ cluster result = c
      /\ customUrl result = u
      /\ (status result = Connected \/ status result = Failure)
      /\ (forall s, reduce s (observed true w c u) = result))
  /\ (forall connection,
        URL_parses w u = true ->
        Connection_new w (clusterUrl (env w) c u) = inr connection ->
        observed false w c u = issue_events w c u
        /\ dispatched (observed false w c u) = [connecting_action c u]
        /\ (forall s, reduce s (observed false w c u)
                      = connecting_action c u))
  /\ (URL_parses w u = false
      \/ (exists e, Connection_new w (clusterUrl (env w) c u) = inl e) ->
      observed false w c u = observed true w c u).
Proof.
  split; [exact (attempt_outcome c u) |]. split.
  - intros conn Hurl Hnew.
    assert (Hobs : observed false w c u = issue_events w c u).
    { unfold observed. rewrite trace_unfold, Hurl, Hnew. reflexivity. }
    rewrite Hobs. split; [reflexivity |]. split; reflexivity.
  - intros Hearly. unfold observed. apply until_await_no_await.
    rewrite trace_unfold. destruct Hearly as [Hurl | [e Hnew]].
    + rewrite Hurl. cbn [existsb is_await orb].
      apply catch_events_no_await.
    + destruct (URL_parses w u); cbn [existsb is_await orb].
      * rewrite Hnew. apply catch_events_no_await.
      * apply catch_events_no_await.
Qed.

(** X4. When the custom URL parses but the client's constructor throws,
    the attempt goes straight to its catch block: it dispatches Failure
    without issuing a single request and without ever suspending. *)
Theorem updateCluster_connection_refused (c : Cluster) (u : string)
  (e : Thrown) :
  URL_parses w u = true ->
  Connection_new w (clusterUrl (env w) c u) = inl e ->
  trace w c u
  = ([EvDispatch (connecting_action c u); EvNewURL u;
      EvNewConnection (clusterUrl (env w) c u)]
     ++ catch_events w c u e)%list
  /\ existsb is_fetch (trace w c u) = false
  /\ existsb is_await (trace w c u) = false
  /\ (forall s, reduce s (trace w c u) = failure_action c u).
Proof.
  intros Hurl Hnew.
  assert (Htr : trace w c u
                = ([EvDispatch (connecting_action c u); EvNewURL u;
                    EvNewConnection (clusterUrl (env w) c u)]
                   ++ catch_events w c u e)%list).
  { rewrite trace_unfold, Hurl, Hnew. reflexivity. }
  split; [exact Htr |].
  rewrite Htr. split; [| split].
  - unfold catch_events. destruct c; reflexivity.
  - unfold catch_events. destruct c; reflexivity.
  - intros s. unfold reduce.
    replace (dispatched
               ([EvDispatch (connecting_action c u); EvNewURL u;
                 EvNewConnection (clusterUrl (env w) c u)]
                ++ catch_events w c u e))
      with ([connecting_action c u; failure_action c u]
            : list (Action ES EI)).
    + cbn [fold_left]. apply reducer_takes_own_result; reflexivity.
    + unfold catch_events. destruct c; reflexivity.
Qed.

(** X5. The RPC client is reached exactly when the custom URL parses,
    for every cluster. *)
Theorem network_reached_iff_url_parses (c : Cluster) (u : string) :
  calls_network (trace w c u) = URL_parses w u.
Proof.
  rewrite trace_unfold.
  destruct (URL_parses w u).
  - reflexivity.
  - unfold calls_network. cbn [existsb is_network_call orb].
    apply catch_events_no_network_call.
Qed.


End ConnectExtras.

(** ** Concurrent attempts *)

Section RaceFacts.

Context {ES EI : Type}.

Lemma clusterReducer_stale (s a : State ES EI) :
  status a <> Connecting ->
  identity a <> identity s ->
  clusterReducer s a = s.
Proof.
  intros Hnc Hid. rewrite (clusterReducer_result s a Hnc).
  destruct (negb (Cluster_eqb (cluster s) (cluster a))
            || negb (customUrl s =? customUrl a)%string) eqn:Hguard.
  - reflexivity.
  - exfalso. apply Hid. apply identity_guard. exact Hguard.
Qed.

Lemma clusterReducer_fresh (s a : State ES EI) :
  identity a = identity s ->
  clusterReducer s a = a.
Proof.
  intros Hid. destruct (status a) eqn:Hst.
  - rewrite clusterReducer_result by congruence.
    rewrite (proj2 (identity_guard s a) Hid). reflexivity.
  - unfold clusterReducer. rewrite Hst. reflexivity.
  - rewrite clusterReducer_result by congruence.
    rewrite (proj2 (identity_guard s a) Hid). reflexivity.
Qed.

Lemma clusterReducer_connecting (s : State ES EI) (c : Cluster)
  (u : string) :
  clusterReducer s (connecting_action c u) = connecting_action c u.
Proof. reflexivity. Qed.

Lemma interleave_one_two {A : Type} (a b c : A) (l : list A) :
  interleave [a] [b; c] l ->
  l = [a; b; c] \/ l = [b; a; c] \/ l = [b; c; a].
Proof.
  intros H.
  repeat match goal with
         | Hi : interleave _ _ _ |- _ => inversion Hi; clear Hi; subst
         end; auto.
Qed.

(** X7. Two attempts for different requests race: once the later one
    has dispatched Connecting, the result of the earlier one is dropped
    whenever it arrives, and the state ends as if the later attempt had
    run alone. *)
Theorem later_attempt_wins (wA wB : World ES EI) (cA cB : Cluster)
  (uA uB : string) (s : State ES EI) (l : list (Action ES EI)) :
  (cA, uA) <> (cB, uB) ->
  interleave (tl (dispatched (trace wA cA uA)))
             (dispatched (trace wB cB uB)) l ->
  fold_left clusterReducer (connecting_action cA uA :: l) s
  = reduce s (trace wB cB uB).
Proof.
  intros Hne Hl.
  destruct (attempt_outcome wA cA uA) as (rA & HdA & HcA & HuA & HsA & _).
  destruct (attempt_outcome wB cB uB) as (rB & HdB & HcB & HuB & HsB & HB).
  rewrite (HB s). rewrite HdA, HdB in Hl. cbn [tl] in Hl.
  assert (HncA : status rA <> Connecting) by (destruct HsA; congruence).
  assert (HncB : status rB <> Connecting) by (destruct HsB; congruence).
  assert (HidA : identity rA = (cA, uA)) by (unfold identity; congruence).
  assert (HidB : identity rB = (cB, uB)) by (unfold identity; congruence).
  assert (Htake : forall s0,
             clusterReducer (clusterReducer s0 (connecting_action cB uB)) rB
             = rB).
  { intros s0. apply reducer_takes_own_result; assumption. }
  destruct (interleave_one_two rA (connecting_action cB uB) rB l Hl)
    as [-> | [-> | ->]]; cbn [fold_left].
  - (* the earlier result arrives before the later attempt starts *)
    apply Htake.
  - (* it arrives while the later attempt is connecting *)
    rewrite !clusterReducer_connecting.
    rewrite (clusterReducer_stale (connecting_action cB uB) rA HncA)
      by (rewrite HidA; exact Hne).
    apply clusterReducer_fresh. rewrite HidB. reflexivity.
  - (* it arrives after the later attempt has settled *)
    rewrite !clusterReducer_connecting.
    rewrite (clusterReducer_fresh (connecting_action cB uB) rB)
      by (rewrite HidB; reflexivity).
    apply clusterReducer_stale; [exact HncA |].
    rewrite HidA, HidB. exact Hne.
Qed.

(** X8. Attempts for the same cluster and custom URL are not told apart:
    when the result of an earlier attempt arrives after a later attempt
    for the same request has settled, it replaces the later result. *)
Theorem same_request_last_result_wins (wA wB : World ES EI) (c : Cluster)
  (u : string) (s : State ES EI) :
  fold_left clusterReducer
    (connecting_action c u
     :: dispatched (trace wB c u) ++ tl (dispatched (trace wA c u))) s
  = reduce s (trace wA c u).
Proof.
  destruct (attempt_outcome wA c u) as (rA & HdA & HcA & HuA & HsA & HA).
  destruct (attempt_outcome wB c u) as (rB & HdB & HcB & HuB & HsB & _).
  rewrite (HA s), HdA, HdB. cbn [tl app fold_left].
  apply clusterReducer_fresh.
  rewrite !clusterReducer_connecting.
  rewrite (clusterReducer_fresh (connecting_action c u) rB)
    by (unfold identity; cbn; congruence).
  unfold identity. congruence.
Qed.

End RaceFacts.

(** ** What is reported *)

Lemma Promise_both_reason {A B : Type} (p : Promise A) (q : Promise B)
  (e : Thrown) :
  outcome (Promise_both p q) = inl e ->
  outcome p = inl e \/ outcome q = inl e.
Proof.
  unfold Promise_both.
  destruct (outcome p) as [e1 | a], (outcome q) as [e2 | b];
    try destruct (settledAt q <? settledAt p)%nat; cbn;
    intros H; first [discriminate | injection H as ->; auto].
Qed.

Lemma Promise_all_reason {A B C D : Type}
  (p1 : Promise A) (p2 : Promise B) (p3 : Promise C) (p4 : Promise D)
  (e : Thrown) :
  outcome (Promise_all p1 p2 p3 p4) = inl e ->
  outcome p1 = inl e \/ outcome p2 = inl e
  \/ outcome p3 = inl e \/ outcome p4 = inl e.
Proof.
  unfold Promise_all. intros H.
  apply Promise_both_reason in H. destruct H as [H | H]; [| auto].
  apply Promise_both_reason in H. destruct H as [H | H]; [| auto].
  apply Promise_both_reason in H. destruct H as [H | H]; auto.
Qed.

Section ReportFacts.

Context {ES EI : Type}.
Variable w : World ES EI.

Lemma In_catch_events_report (c : Cluster) (u : string) (e e0 : Thrown)
  (ctx : string) :
  In (EvReportError e0 ctx) (catch_events w c u e) -> e0 = e.
Proof.
  unfold catch_events.
  destruct (negb (Cluster_eqb c Custom)); cbn;
    intros H; repeat (destruct H as [H | H]);
    first [contradiction | congruence].
Qed.

(** X9. The error handed to reportError is always an error of this very
    attempt: the TypeError of a custom URL that does not parse, what the
    client's constructor threw, or the reason of one of the four requests
    that was rejected. *)
Theorem reported_error_provenance (c : Cluster) (u : string) (e : Thrown)
  (ctx : string) :
  In (EvReportError e ctx) (trace w c u) ->
  (URL_parses w u = false /\ e = TypeError "Invalid URL")
  \/ (URL_parses w u = true
      /\ Connection_new w (clusterUrl (env w) c u) = inl e)
  \/ (exists connection,
        URL_parses w u = true
        /\ Connection_new w (clusterUrl (env w) c u) = inr connection
        /\ (outcome (rpc_getFirstAvailableBlock connection) = inl e
            \/ outcome (rpc_getEpochSchedule connection) = inl e
            \/ outcome (rpc_getEpochInfo connection) = inl e
            \/ outcome (rpc_getGenesisHash connection) = inl e)).
Proof.
  rewrite trace_unfold. intros Hin.
  do 2 (destruct Hin as [Hin | Hin]; [discriminate |]).
  destruct (URL_parses w u).
  - destruct Hin as [Hin | Hin]; [discriminate |].
    destruct (Connection_new w (clusterUrl (env w) c u)) as [e1 | conn].
    + right; left. apply In_catch_events_report in Hin. subst. auto.
    + do 5 (destruct Hin as [Hin | Hin]; [discriminate |]).
      destruct (outcome (joint_promise conn)) as [e1 | [[[fab es] ei] gh]]
        eqn:Hjoint.
      * apply In_catch_events_report in Hin. subst e1.
        right; right. exists conn.
        split; [reflexivity |]. split; [reflexivity |].
        exact (Promise_all_reason _ _ _ _ e Hjoint).
      * destruct Hin as [Hin | []]. discriminate.
  - left. apply In_catch_events_report in Hin. auto.
Qed.

End ReportFacts.

(** ** The query and the provider *)

Lemma get_delete_other (query : URLSearchParams) (deleted name : string) :
  name <> deleted ->
  URLSearchParams_get (URLSearchParams_delete query deleted) name
  = URLSearchParams_get query name.
Proof.
  intros Hne. unfold URLSearchParams_get, URLSearchParams_delete.
  induction query as [| [k v] query IH]; [reflexivity |].
  cbn [filter find fst snd].
  destruct (String.eqb_spec k deleted) as [-> | Hk]; cbn [negb].
  - destruct (String.eqb_spec deleted name) as [Heq | _];
      [congruence | exact IH].
  - cbn [find fst snd].
    destruct (String.eqb_spec k name); [reflexivity | exact IH].
Qed.

Lemma has_delete (query : URLSearchParams) (name : string) :
  URLSearchParams_has (URLSearchParams_delete query name) name = false.
Proof.
  unfold URLSearchParams_has, URLSearchParams_delete.
  induction query as [| [k v] query IH]; [reflexivity |].
  cbn [filter fst].
  destruct (String.eqb_spec k name) as [-> | Hk]; cbn [negb].
  - exact IH.
  - cbn [existsb fst].
    destruct (String.eqb_spec k name); [congruence | exact IH].
Qed.

(** X10. The slug of a cluster selects that cluster: a query whose
    [cluster] parameter is [clusterSlug c] is parsed to [c]. *)
Theorem parseQuery_clusterSlug (query : URLSearchParams) (c : Cluster) :
  URLSearchParams_get query "cluster" = Some (clusterSlug c) ->
  parseQuery query = c.
Proof.
  intros Hget. unfold parseQuery. rewrite Hget. destruct c; reflexivity.
Qed.

(** X11. Only the exact slugs [custom] and [testnet] select another
    cluster than MainnetBeta; a missing parameter and any other value,
    whatever its case, select MainnetBeta. *)
Theorem parseQuery_default (query : URLSearchParams) :
  (parseQuery query = Custom
   <-> URLSearchParams_get query "cluster" = Some "custom")
  /\ (parseQuery query = Testnet
      <-> URLSearchParams_get query "cluster" = Some "testnet")
  /\ (parseQuery query = MainnetBeta
      <-> URLSearchParams_get query "cluster" <> Some "custom"
          /\ URLSearchParams_get query "cluster" <> Some "testnet").
Proof.
  unfold parseQuery.
  destruct (URLSearchParams_get query "cluster") as [p |].
  - destruct (String.eqb_spec p "custom") as [-> | Hc].
    + intuition congruence.
    + destruct (String.eqb_spec p "testnet") as [-> | Ht].
      * intuition congruence.
      * destruct (p =? "mainnet-beta")%string; intuition congruence.
  - intuition congruence.
Qed.

(** X12. When the effect that removes the custom URL fires, the search
    it pushes has no [customUrl] parameter left, keeps every other
    parameter, hence the selected cluster, and does not make the effect
    fire again. *)
Theorem removeCustomUrlEffect_result (b : Browser)
  (search : URLSearchParams) :
  removeCustomUrlEffect b = Some search ->
  URLSearchParams_has search "customUrl" = false
  /\ (forall name, name <> "customUrl" ->
        URLSearchParams_get search name
        = URLSearchParams_get (useQuery b) name)
  /\ parseQuery search = parseQuery (useQuery b)
  /\ removeCustomUrlEffect
       {| localStorageIsAvailable := localStorageIsAvailable b;
          localStorage_getItem := localStorage_getItem b;
          useQuery := search |} = None.
Proof.
  unfold removeCustomUrlEffect.
  destruct (negb (enableCustomUrl b)
            && URLSearchParams_has (useQuery b) "customUrl");
    [| discriminate].
  intros Hs. injection Hs as <-.
  assert (Hhas := has_delete (useQuery b) "customUrl").
  split; [exact Hhas |].
  split; [intros name Hne; apply get_delete_other; exact Hne |].
  split.
  - unfold parseQuery. rewrite get_delete_other by discriminate.
    reflexivity.
  - cbn [useQuery]. rewrite Hhas, andb_false_r. reflexivity.
Qed.

Section ProviderFacts.

Context {ES EI : Type}.

(** X13. The [customUrl] parameter of the query overrides the custom URL
    of the state only when the developer setting is on and the parameter
    is not empty: with the setting off, or with an empty parameter, the
    provider keeps the URL of the state. *)
Theorem ClusterProvider_customUrl_choice (b : Browser) (s : State ES EI) :
  (enableCustomUrl b = false ->
   ClusterProvider_customUrl b s = customUrl s)
  /\ (URLSearchParams_get (useQuery b) "customUrl" = Some "" ->
      ClusterProvider_customUrl b s = customUrl s)
  /\ (ClusterProvider_customUrl b s = customUrl s
      \/ (enableCustomUrl b = true
          /\ URLSearchParams_get (useQuery b) "customUrl"
             = Some (ClusterProvider_customUrl b s)
          /\ ClusterProvider_customUrl b s <> "")).
Proof.
  unfold ClusterProvider_customUrl, js_and, js_or, truthy.
  split; [intros ->; reflexivity |].
  split.
  - intros ->. destruct (enableCustomUrl b); reflexivity.
  - destruct (enableCustomUrl b); [| left; reflexivity].
    destruct (URLSearchParams_get (useQuery b) "customUrl") as [p |];
      [| left; reflexivity].
    destruct (String.eqb_spec p ""); cbn [negb]; [left; reflexivity |].
    right. auto.
Qed.

Lemma js_or_idempotent (v : JsOperand) (fallback : string) :
  js_or v (js_or v fallback) = js_or v fallback.
Proof. destruct v; cbn; try reflexivity. destruct (negb _); reflexivity. Qed.

Lemma In_dispatched (a : Action ES EI) (events : list (Event ES EI)) :
  In a (dispatched events) <-> In (EvDispatch a) events.
Proof.
  unfold dispatched. rewrite in_flat_map. split.
  - intros (ev & Hin & Ha). destruct ev; cbn in Ha; try contradiction.
    destruct Ha as [Ha | Ha]; [subst; exact Hin | contradiction].
  - intros Hin. exists (EvDispatch a). split; [exact Hin | left; reflexivity].
Qed.

Lemma In_firstn {A : Type} (n : nat) (l : list A) (x : A) :
  In x (firstn n l) -> In x l.
Proof.
  revert l. induction n as [| n IH]; intros [| y l] H; cbn in *;
    try contradiction.
  destruct H as [H | H]; [left; exact H | right; exact (IH l H)].
Qed.

Lemma attempt_actions (w : World ES EI) (c : Cluster) (u : string)
  (a : Action ES EI) :
  In (EvDispatch a) (trace w c u) -> cluster a = c /\ customUrl a = u.
Proof.
  intros Hin. apply In_dispatched in Hin.
  destruct (attempt_outcome w c u) as (r & Hd & Hc & Hu & _).
  rewrite Hd in Hin.
  destruct Hin as [Hin | [Hin | Hin]]; [subst a; auto | subst a; auto |].
  contradiction.
Qed.

Lemma fold_customUrl (u : string) (l : list (Action ES EI))
  (s : State ES EI) :
  (forall a, In a l -> customUrl a = u) ->
  customUrl (fold_left clusterReducer l s) = u
  \/ customUrl (fold_left clusterReducer l s) = customUrl s.
Proof.
  revert s. induction l as [| a l IH]; intros s Hall; [right; reflexivity |].
  cbn [fold_left].
  destruct (IH (clusterReducer s a)) as [H | H].
  - intros a0 Ha0. apply Hall. right. exact Ha0.
  - left. exact H.
  - rewrite H. destruct (clusterReducer_either s a) as [-> | ->].
    + right. reflexivity.
    + left. apply Hall. left. reflexivity.
Qed.

(** X14. The reconnect effect does not retrigger itself: at any point of
    the attempt it starts, the state its dispatches have produced gives
    the provider the same [customUrl] again at the next render (the
    cluster comes from the query alone), so its dependencies are
    unchanged. *)
Theorem reconnectEffect_stable (w : World ES EI) (b : Browser)
  (s : State ES EI) (n : nat) :
  ClusterProvider_customUrl b
    (reduce s (firstn n (fst (reconnectEffect w b s))))
  = ClusterProvider_customUrl b s.
Proof.
  unfold reconnectEffect.
  change (fst (updateCluster w (parseQuery (useQuery b))
                 (ClusterProvider_customUrl b s)))
    with (trace w (parseQuery (useQuery b)) (ClusterProvider_customUrl b s)).
  set (u := ClusterProvider_customUrl b s).
  set (t := trace w (parseQuery (useQuery b)) u).
  destruct (fold_customUrl u (dispatched (firstn n t)) s) as [H | H].
  - intros a Ha. apply In_dispatched, In_firstn in Ha.
    apply (attempt_actions w _ _ a Ha).
  - unfold ClusterProvider_customUrl at 1. unfold reduce. rewrite H.
    unfold u, ClusterProvider_customUrl. apply js_or_idempotent.
  - unfold ClusterProvider_customUrl at 1. unfold reduce. rewrite H.
    reflexivity.
Qed.

Lemma In_catch_events_connection (w : World ES EI) (c : Cluster)
  (u : string) (e : Thrown) (ep : string) :
  ~ In (EvNewConnection ep) (catch_events w c u e).
Proof.
  unfold catch_events.
  destruct (negb (Cluster_eqb c Custom)); cbn;
    intros H; repeat (destruct H as [H | H]);
    first [contradiction | discriminate].
Qed.

(** X15. After an attempt whose custom URL parses, the [url] that
    [useCluster] shows for the resulting state is the endpoint the
    attempt connected to, and the only one; the [name] is the one of the
    requested cluster. Outside a provider the hook throws. *)
Theorem useCluster_shows_connected_endpoint (w : World ES EI)
  (c : Cluster) (u : string) (s : State ES EI) :
  URL_parses w u = true ->
  (exists view,
      useCluster (env w) (Some (reduce s (trace w c u))) = inr view
      /\ (forall endpoint,
            In (EvNewConnection endpoint) (trace w c u)
            <-> endpoint = ClusterContext.url view)
      /\ ClusterContext.name view = clusterName c
      /\ identity (ClusterContext.state view) = (c, u))
  /\ useCluster (env w) (@None (State ES EI))
     = inl (Error "useCluster must be used within a ClusterProvider").
Proof.
  intros Hurl. split; [| reflexivity].
  destruct (attempt_outcome w c u) as (r & _ & Hc & Hu & _ & Hr).
  rewrite (Hr s). eexists. split; [reflexivity |].
  cbn [ClusterContext.url ClusterContext.name ClusterContext.state].
  rewrite Hc, Hu. split; [| split; [reflexivity |]].
  - intros endpoint. rewrite trace_unfold, Hurl. split.
    + intros Hin.
      do 2 (destruct Hin as [Hin | Hin]; [discriminate |]).
      destruct Hin as [Hin | Hin]; [congruence |].
      exfalso.
      destruct (Connection_new w (clusterUrl (env w) c u)) as [e | conn].
      * exact (In_catch_events_connection w c u e endpoint Hin).
      * do 5 (destruct Hin as [Hin | Hin]; [discriminate |]).
        destruct (outcome (joint_promise conn))
          as [e | [[[fab es] ei] gh]].
        -- exact (In_catch_events_connection w c u e endpoint Hin).
        -- destruct Hin as [Hin | []]. discriminate.
    + intros ->. right; right; left. reflexivity.
  - unfold identity. congruence.
Qed.

Lemma existsb_firstn_false {A : Type} (f : A -> bool) (n : nat)
  (l : list A) :
  existsb f l = false -> existsb f (firstn n l) = false.
Proof.
  revert l. induction n as [| n IH]; intros [| x l] H; try reflexivity.
  cbn [firstn existsb] in *.
  apply orb_false_iff in H. destruct H as [Hx Hl].
  rewrite Hx, (IH l Hl). reflexivity.
Qed.

(** X16. The setter of [useUpdateCustomUrl] starts a connect attempt for
    the Custom cluster with the URL it is given: its events are those of
    [updateCluster] for Custom and that URL, they begin with the
    Connecting dispatch and the URL check, and when the URL parses the
    client is constructed on that very URL. This attempt never calls
    reportError, at any point and whether it succeeds or fails, and all
    it dispatches is for Custom and the URL. Outside a provider the hook
    throws. *)
Theorem useUpdateCustomUrl_never_reports (w : World ES EI) (u : string) :
  (exists setter,
      useUpdateCustomUrl w true = inr setter
      /\ reports_error (fst (setter u)) = false
      /\ (forall a, In a (dispatched (fst (setter u))) ->
            cluster a = Custom /\ customUrl a = u)
      /\ fst (setter u) = trace w Custom u
      /\ (exists rest,
            fst (setter u)
            = EvDispatch (connecting_action Custom u) :: EvNewURL u :: rest)
      /\ (URL_parses w u = true -> In (EvNewConnection u) (fst (setter u)))
      /\ (forall n, reports_error (firstn n (fst (setter u))) = false))
  /\ useUpdateCustomUrl w false
     = inl (Error "useUpdateCustomUrl must be used within a ClusterProvider").
Proof.
  split; [| reflexivity].
  exists (fun customUrl => updateCluster w Custom customUrl).
  split; [reflexivity |].
  change (fst (updateCluster w Custom u)) with (trace w Custom u).
  assert (Hrep : reports_error (trace w Custom u) = false).
  { rewrite trace_unfold.
    destruct (URL_parses w u); [| reflexivity].
    destruct (Connection_new w (clusterUrl (env w) Custom u)) as [e | conn];
      [reflexivity |].
    destruct (outcome (joint_promise conn)) as [e | [[[fab es] ei] gh]];
      reflexivity. }
  split; [exact Hrep |]. split.
  { intros a Ha. apply In_dispatched in Ha.
    exact (attempt_actions w Custom u a Ha). }
  split; [reflexivity |]. split.
  { rewrite trace_unfold. eexists. reflexivity. }
  split.
  { intros Hurl. rewrite trace_unfold, Hurl. right; right; left.
    reflexivity. }
  intros n. apply existsb_firstn_false. exact Hrep.
Qed.

End ProviderFacts.

(** ** The further properties on concrete runs *)

Lemma updateCluster_connection_refused_witness :
  trace refusing_world Custom DEFAULT_CUSTOM_URL
  = [EvDispatch (connecting_action Custom DEFAULT_CUSTOM_URL);
     EvNewURL DEFAULT_CUSTOM_URL;
     EvNewConnection DEFAULT_CUSTOM_URL;
     EvDispatch (failure_action Custom DEFAULT_CUSTOM_URL)]
  /\ existsb is_fetch (trace refusing_world Custom DEFAULT_CUSTOM_URL)
     = false.
Proof.
  destruct (updateCluster_connection_refused refusing_world Custom
              DEFAULT_CUSTOM_URL
              (TypeError "Endpoint URL must start with http: or https:")
              eq_refl eq_refl) as (Htrace & Hfetch & _).
  split; [exact Htrace | exact Hfetch].
Defined.

Lemma later_attempt_wins_witness :
  fold_left clusterReducer
    [connecting_action Testnet DEFAULT_CUSTOM_URL;
     connecting_action MainnetBeta DEFAULT_CUSTOM_URL;
     connected_action MainnetBeta DEFAULT_CUSTOM_URL healthy_info;
     failure_action Testnet DEFAULT_CUSTOM_URL]
    initialState
  = connected_action MainnetBeta DEFAULT_CUSTOM_URL healthy_info.
Proof.
  apply (later_attempt_wins faulty_world healthy_world Testnet MainnetBeta
           DEFAULT_CUSTOM_URL DEFAULT_CUSTOM_URL initialState
           [connecting_action MainnetBeta DEFAULT_CUSTOM_URL;
            connected_action MainnetBeta DEFAULT_CUSTOM_URL healthy_info;
            failure_action Testnet DEFAULT_CUSTOM_URL]).
  - discriminate.
  - apply interleave_right, interleave_right, interleave_left,
      interleave_nil.
Defined.

Lemma reported_error_provenance_witness :
  In (EvReportError (Rejection "503")
        "https://explorer-api-testnet.bbachain.com")
     (trace faulty_world Testnet DEFAULT_CUSTOM_URL)
  /\ exists connection,
       Connection_new faulty_world "https://explorer-api-testnet.bbachain.com"
       = inr connection
       /\ outcome (rpc_getEpochInfo connection) = inl (Rejection "503").
Proof.
  assert (Hin : In (EvReportError (Rejection "503")
                      "https://explorer-api-testnet.bbachain.com")
                   (trace faulty_world Testnet DEFAULT_CUSTOM_URL)).
  { do 8 right. left. reflexivity. }
  split; [exact Hin |].
  destruct (reported_error_provenance faulty_world Testnet
              DEFAULT_CUSTOM_URL (Rejection "503")
              "https://explorer-api-testnet.bbachain.com" Hin)
    as [[Hurl _] | [[_ Hnew] | (conn & _ & Hnew & Hrej)]].
  - discriminate Hurl.
  - discriminate Hnew.
  - exists conn. split; [exact Hnew |].
    assert (Hconn : faulty_connection = conn).
    { change (Connection_new faulty_world
                (clusterUrl (env faulty_world) Testnet DEFAULT_CUSTOM_URL))
        with (@inr Thrown _ faulty_connection) in Hnew.
      congruence. }
    subst conn.
    destruct Hrej as [H | [H | [H | H]]];
      first [discriminate H | exact H].
Defined.

Lemma parseQuery_clusterSlug_witness :
  URLSearchParams_get (useQuery sample_browser) "cluster"
  = Some (clusterSlug Testnet)
  /\ parseQuery (useQuery sample_browser) = Testnet.
Proof.
  split; [reflexivity |].
  apply (parseQuery_clusterSlug (useQuery sample_browser) Testnet).
  reflexivity.
Defined.

Lemma removeCustomUrlEffect_result_witness :
  removeCustomUrlEffect sample_browser = Some [("cluster", "testnet")]
  /\ URLSearchParams_has [("cluster", "testnet")] "customUrl" = false
  /\ parseQuery [("cluster", "testnet")]
     = parseQuery (useQuery sample_browser).
Proof.
  split; [reflexivity |].
  destruct (removeCustomUrlEffect_result sample_browser
              [("cluster", "testnet")] eq_refl) as (Hhas & _ & Hcluster & _).
  split; [exact Hhas | exact Hcluster].
Defined.

Lemma ClusterProvider_customUrl_choice_witness :
  enableCustomUrl sample_browser = false
  /\ ClusterProvider_customUrl sample_browser healthy_state
     = DEFAULT_CUSTOM_URL
  /\ ClusterProvider_customUrl dev_browser healthy_state
     = "http://10.0.0.1:8899".
Proof.
  split; [reflexivity |]. split.
  - apply (proj1 (ClusterProvider_customUrl_choice sample_browser
                    healthy_state)).
    reflexivity.
  - destruct (ClusterProvider_customUrl_choice dev_browser healthy_state)
      as (_ & _ & [Hsame | (_ & Hget & _)]).
    + discriminate Hsame.
    + apply (f_equal (fun o => match o with
                               | Some p => p
                               | None => EmptyString
                               end)) in Hget.
      symmetry. exact Hget.
Defined.

Lemma useCluster_shows_connected_endpoint_witness :
  exists view,
    useCluster sample_env
      (Some (reduce initialState
               (trace healthy_world Testnet DEFAULT_CUSTOM_URL)))
    = inr view
    /\ ClusterContext.url view = "https://explorer-api-testnet.bbachain.com"
    /\ ClusterContext.name view = "Testnet".
Proof.
  destruct (useCluster_shows_connected_endpoint healthy_world Testnet
              DEFAULT_CUSTOM_URL initialState eq_refl)
    as [(view & Hview & Hendpoint & Hname & _) _].
  exists view. split; [exact Hview |]. split; [| exact Hname].
  symmetry. apply Hendpoint. right; right; left. reflexivity.
Defined.

Lemma useUpdateCustomUrl_never_reports_witness :
  exists setter,
    useUpdateCustomUrl healthy_world true = inr setter
    /\ reports_error (fst (setter "http://10.0.0.1:8899")) = false
    /\ In (EvNewConnection "http://10.0.0.1:8899")
         (fst (setter "http://10.0.0.1:8899"))
    /\ dispatched (fst (setter "http://10.0.0.1:8899"))
       = [connecting_action Custom "http://10.0.0.1:8899";
          connected_action Custom "http://10.0.0.1:8899" healthy_info].
Proof.
  destruct (useUpdateCustomUrl_never_reports healthy_world
              "http://10.0.0.1:8899")
    as [(setter & Hsetter & Hrep & _ & Htrace & _ & Hconn & _) _].
  exists setter. split; [exact Hsetter |]. split; [exact Hrep |].
  split; [exact (Hconn eq_refl) |].
  rewrite Htrace. reflexivity.
Defined.

Lemma attempt_settles_or_stays_connecting_witness :
  observed false healthy_world Testnet DEFAULT_CUSTOM_URL
  = issue_events healthy_world Testnet DEFAULT_CUSTOM_URL
  /\ reduce healthy_state
       (observed false healthy_world Testnet DEFAULT_CUSTOM_URL)
     = connecting_action Testnet DEFAULT_CUSTOM_URL
  /\ observed false healthy_world Testnet "not a url"
     = observed true healthy_world Testnet "not a url".
Proof.
  destruct (attempt_settles_or_stays_connecting healthy_world Testnet
              DEFAULT_CUSTOM_URL) as (_ & Hwait & _).
  destruct (Hwait healthy_connection eq_refl eq_refl) as (Hobs & _ & Hs).
  split; [exact Hobs |]. split; [exact (Hs healthy_state) |].
  destruct (attempt_settles_or_stays_connecting healthy_world Testnet
              "not a url") as (_ & _ & Hearly).
  apply Hearly. left. reflexivity.
Defined.

